(** * Authentication and authorization pipeline of the Express starter

    A shallow embedding of the TypeScript sources
      - core/common/constants.ts, core/common/error-handler.ts
      - core/common/jwt.ts, core/common/authentication.ts
      - core/common/authorization.ts, core/common/bcrypt.ts
      - entity/user.entity.ts, services/user, services/auth
    together with the properties the specification states about them.

    JavaScript objects that the code mutates (the request, the response,
    the entity handed to the repository) are threaded explicitly; thrown
    exceptions and rejected promises are the left summand of a result;
    [await] is sequencing in the world monad [M].  Calls to the logger
    write to its file and feed into no result; they are left out. *)

From Stdlib Require Import String Ascii List ZArith Lia Bool Arith DecimalString.
From Equations Require Import Equations.
Import ListNotations.

Local Open Scope string_scope.

(** ** A fragment of JavaScript values *)

Module Js.

(** The values that can sit in a field read by the guards: a route
    parameter is a string or missing, a JSON body field can be any of
    these.  Numbers are integers here; the guards only test them for
    truthiness and compare them with strings. *)
Inductive value : Type :=
| VUndefined
| VNull
| VBool (b : bool)
| VNumber (z : Z)
| VString (s : string)
| VObject.

(** ToBoolean. *)
Definition truthy (v : value) : bool :=
  match v with
  | VUndefined | VNull => false
  | VBool b => b
  | VNumber z => negb (z =? 0)%Z
  | VString s => negb (s =? "")
  | VObject => true
  end.

(** [a || b]: the first operand when it is truthy, else the second
    (which is then not evaluated when the first is truthy). *)
Definition or_else (a b : value) : value :=
  if truthy a then a else b.

(** [a === b] on this fragment (objects are never compared here, two
    distinct object references are unequal). *)
Definition strict_eq (a b : value) : bool :=
  match a, b with
  | VUndefined, VUndefined => true
  | VNull, VNull => true
  | VBool x, VBool y => Bool.eqb x y
  | VNumber x, VNumber y => (x =? y)%Z
  | VString x, VString y => (x =? y)
  | _, _ => false
  end.

(** An optional string property: [undefined] when absent. *)
Definition of_opt (o : option string) : value :=
  match o with
  | Some s => VString s
  | None => VUndefined
  end.

(** [s.startsWith(p)] *)
Definition startsWith (s p : string) : bool := String.prefix p s.

(** [s.split(sep)] for a one-character separator: the pieces between
    the separators, in order; the empty string splits into [[""]]. *)
Fixpoint split (sep : ascii) (s : string) : list string :=
  match s with
  | EmptyString => [""]
  | String c rest =>
      if Ascii.eqb c sep then "" :: split sep rest
      else match split sep rest with
           | [] => [String c ""]
           | piece :: pieces => String c piece :: pieces
           end
  end.

(** Whether the character occurs in the string. *)
Fixpoint has_char (c : ascii) (s : string) : bool :=
  match s with
  | EmptyString => false
  | String d rest => Ascii.eqb d c || has_char c rest
  end.

(** [xs.some(p)] and [xs.includes(x)] on an array of strings. *)
Definition some {A} (p : A -> bool) (xs : list A) : bool := existsb p xs.
Definition includes (xs : list string) (x : string) : bool :=
  existsb (String.eqb x) xs.

(** What a [throw] carries.  [AppError] sets [statusCode]; the errors
    of the runtime and of the libraries have none. *)
Record Exn : Type := mkExn {
  message : string;
  name : string;
  statusCode : option Z
}.

Definition TypeError (msg : string) : Exn :=
  {| message := msg; name := "TypeError"; statusCode := None |}.

End Js.
Import Js.

(** ** core/common/constants.ts *)

Definition AUTHENTICATION_ERROR : string := "AuthenticationError".
Definition VALIDATION_ERROR : string := "ValidationError".

Definition HTTP_OK : Z := 200.
Definition HTTP_BAD_REQUEST : Z := 400.
Definition HTTP_UNAUTHENTICATED : Z := 401.
Definition HTTP_FORBIDDEN : Z := 403.
Definition HTTP_NOT_FOUND : Z := 404.
Definition HTTP_INTERNAL_SERVER_ERROR : Z := 500.

(** ** types/index.ts *)

Inductive UserRole : Type := ADMIN | USER | MANAGER.

(** The string each member of the enum stands for at run time. *)
Definition UserRole_value (r : UserRole) : string :=
  match r with
  | ADMIN => "admin"
  | USER => "user"
  | MANAGER => "manager"
  end.

(** [JWTPayload]: [roles] and [tenantId] are optional properties. *)
Record JWTPayload : Type := mkJWTPayload {
  userId : string;
  email : string;
  roles : option (list string);
  tenantId : option string
}.

(** The object [jwt.verify] hands back: the signed claims and the two
    registered claims [jwt.sign] added.  This is the object that ends up
    in [req.session.user]. *)
Record TokenBody : Type := mkTokenBody {
  claims : JWTPayload;
  iat : Z;
  exp : Z
}.

(** ** The request and the response, as far as the middlewares read and
       write them *)

Record Session : Type := mkSession {
  user : option TokenBody
}.

(** [req.body] is an object on every route: server.ts installs
    [express.json()] and [express.urlencoded()] ahead of the routers. *)
Record Request : Type := mkRequest {
  authorization : option string;      (* req.headers.authorization *)
  session : option Session;           (* req.session *)
  params_tenantId : option string;    (* req.params.tenantId *)
  body_tenantId : value               (* req.body.tenantId *)
}.

(** [res.status(code).json(payload)]: the code and the [message] (or
    [error]) text of the payload. *)
Record Response : Type := mkResponse {
  status : Z;
  sent : option string
}.

Definition fresh_response : Response := {| status := HTTP_OK; sent := None |}.

Definition respond (code : Z) (msg : string) (res : Response) : Response :=
  {| status := code; sent := Some msg |}.

Record Ctx : Type := mkCtx {
  req : Request;
  res : Response
}.

(** What a middleware did with its continuation: called [next(err)]
    ([next()] is [next(undefined)]), returned without calling it, or
    threw. *)
Inductive Signal : Type :=
| CallsNext (err : value)
| NoNext
| Throws (e : Exn).

(** A middleware [(req, res, next) => void] over the objects [St] it can
    reach (request, response, and whatever it closes over). *)
Definition Middleware (St : Type) : Type := St -> St * Signal.

(** The continuation was called with nothing truthy: control goes on to
    the next handler of the route. *)
Definition passes (sg : Signal) : bool :=
  match sg with
  | CallsNext err => negb (truthy err)
  | _ => false
  end.

(** ** core/common/authorization.ts *)

(** [req?.session?.user] *)
Definition session_user (r : Request) : option TokenBody :=
  match session r with
  | Some s => user s
  | None => None
  end.

Definition reject (code : Z) (msg : string) (c : Ctx) : Ctx * Signal :=
  ({| req := req c; res := respond code msg (res c) |}, NoNext).

Definition hasRole (allowed : list UserRole) : Middleware Ctx :=
  fun c =>
    match session_user (req c) with
    | None =>
        reject HTTP_UNAUTHENTICATED "Unauthorized - User not authenticated" c
    | Some u =>
        match roles (claims u) with
        | None =>
            (* user.roles is undefined: [.some] cannot be read off it *)
            (c, Throws (TypeError
               "Cannot read properties of undefined (reading 'some')"))
        | Some user_roles =>
            let hasRequiredRole :=
              some (fun role => includes (map UserRole_value allowed) role)
                   user_roles in
            if negb hasRequiredRole
            then reject HTTP_FORBIDDEN "Forbidden - Insufficient permissions" c
            else (c, CallsNext VUndefined)
        end
    end.

(** [req.params.tenantId || req.body.tenantId] *)
Definition requestedTenantId (r : Request) : value :=
  or_else (of_opt (params_tenantId r)) (body_tenantId r).

Definition belongsToTenant : Middleware Ctx :=
  fun c =>
    let requested := requestedTenantId (req c) in
    match session_user (req c) with
    | None =>
        reject HTTP_UNAUTHENTICATED "Unauthorized - User not authenticated" c
    | Some u =>
        let user_tenantId := of_opt (tenantId (claims u)) in
        if negb (truthy user_tenantId)
           || negb (strict_eq user_tenantId requested)
        then reject HTTP_FORBIDDEN "Forbidden - Invalid tenant access" c
        else (c, CallsNext VUndefined)
    end.

Definition isAdmin : Middleware Ctx := hasRole [ADMIN; MANAGER; USER].
Definition isManager : Middleware Ctx := hasRole [MANAGER; USER].
Definition isUser : Middleware Ctx := hasRole [USER].

(** The value together with the equation that names it, for the
    recursion below. *)
Definition inspect {A : Type} (a : A) : {b : A | a = b} := exist _ a eq_refl.

Section AuthorizeMultiple.

Context {St : Type}.
Variable middlewares : list (Middleware St).

(** [executeMiddleware(index)]: at the end of the array the outer
    [next()] is called; otherwise the middleware at [index] runs with a
    continuation that forwards a truthy error to the outer [next] and
    otherwise moves on to [index + 1]. *)
Equations? executeMiddleware (index : nat) (s : St) : St * Signal
  by wf (length middlewares - index) lt :=
  executeMiddleware index s with Nat.eqb index (length middlewares) := {
    | true => (s, CallsNext VUndefined)
    | false with inspect (nth_error middlewares index) := {
        | exist _ None _ =>
            (s, Throws (TypeError "middlewares[index] is not a function"))
        | exist _ (Some m) Hm =>
            match m s with
            | (s', CallsNext err) =>
                if truthy err then (s', CallsNext err)
                else executeMiddleware (index + 1) s'
            | (s', NoNext) => (s', NoNext)
            | (s', Throws e) => (s', Throws e)
            end } }.
Proof.
  assert (index < length middlewares).
  { apply nth_error_Some. congruence. }
  lia.
Qed.

Definition authorizeMultiple : Middleware St :=
  fun s => executeMiddleware 0 s.

End AuthorizeMultiple.

(** ** Guard composition: the reference evaluation and its trace *)

Section ComposeReference.

Context {St : Type}.

(** The guards of the list one after the other, stopping at the first
    one that does not pass. *)
Fixpoint evaluate_in_order (ms : list (Middleware St)) (s : St) : St * Signal :=
  match ms with
  | [] => (s, CallsNext VUndefined)
  | m :: rest =>
      match m s with
      | (s', CallsNext err) =>
          if truthy err then (s', CallsNext err) else evaluate_in_order rest s'
      | other => other
      end
  end.





End ComposeReference.

(** ** The environment the process starts in *)

Class ProcessEnv : Type := {
  env_JWT_SECRET : option string      (* process.env.JWT_SECRET *)
}.

(** ** jsonwebtoken, as the code uses it

    [jwt.sign(payload, secret, { expiresIn })] and [jwt.verify(token,
    secret)] with the library's defaults (HS256).  The compact
    serialization and the keyed digest are the library's; the model takes
    them as operations and writes out what [sign] and [verify] do with
    them: [sign] stamps [iat] and [exp] and signs, [verify] parses, checks
    the signature and then the expiry against the clock. *)

Class JsonWebToken : Type := {
  (** base64url header and payload, and the signature, joined by dots *)
  jws_encode : TokenBody -> string -> string;
  (** [None]: the string is not such a serialization ("jwt malformed") *)
  jws_decode : string -> option (TokenBody * string);
  (** the signature of a body under a secret *)
  hmac : string -> TokenBody -> string
}.

(** What the library guarantees and the code relies on: a serialized
    token parses back to what went in, it is not the empty string, and it
    has no blank in it (its alphabet is base64url and the dot). *)
Record JsonWebToken_ok `{JsonWebToken} : Prop := {
  decode_encode : forall b sg, jws_decode (jws_encode b sg) = Some (b, sg);
  encode_nonempty : forall b sg, jws_encode b sg <> "";
  encode_no_blank : forall b sg, has_char " " (jws_encode b sg) = false
}.
Arguments JsonWebToken_ok _ : clear implicits.

Definition JsonWebTokenError (msg : string) : Exn :=
  {| message := msg; name := "JsonWebTokenError"; statusCode := None |}.

Definition TokenExpiredError : Exn :=
  {| message := "jwt expired"; name := "TokenExpiredError"; statusCode := None |}.

Section Jwt.

Context `{JsonWebToken} `{ProcessEnv}.

(** [now] is the clock in seconds, [Math.floor(Date.now() / 1000)]. *)
Definition jwt_sign (payload : JWTPayload) (secret : string) (expiresIn : Z)
    (now : Z) : string :=
  let body := {| claims := payload; iat := now; exp := now + expiresIn |} in
  jws_encode body (hmac secret body).

Definition jwt_verify (token : string) (secret : string) (now : Z)
  : Exn + TokenBody :=
  match jws_decode token with
  | None => inl (JsonWebTokenError "jwt malformed")
  | Some (body, sg) =>
      if negb (sg =? hmac secret body)
      then inl (JsonWebTokenError "invalid signature")
      else if (exp body <=? now)%Z
      then inl TokenExpiredError
      else inr body
  end.

(** *** core/common/jwt.ts *)

(** [process.env.JWT_SECRET || 'your-secret-key'] *)
Definition JWT_SECRET : string :=
  match env_JWT_SECRET with
  | Some s => if s =? "" then "your-secret-key" else s
  | None => "your-secret-key"
  end.

(** ['24h'], in seconds *)
Definition TOKEN_EXPIRATION : Z := 24 * 60 * 60.

Definition generateToken (now : Z) (payload : JWTPayload) : string :=
  jwt_sign payload JWT_SECRET TOKEN_EXPIRATION now.

(** [null] is [None]. *)
Definition verifyToken (now : Z) (token : string) : option TokenBody :=
  match jwt_verify token JWT_SECRET now with
  | inr body => Some body
  | inl _ => None
  end.

Definition hasValidSession (now : Z) (authHeader : option string)
  : option TokenBody :=
  match authHeader with
  | None => None
  | Some header =>
      if negb (startsWith header "Bearer ") then None
      else
        match nth_error (split " " header) 1 with
        | None => None
        | Some token =>
            if token =? "" then None else verifyToken now token
        end
  end.

(** *** core/common/authentication.ts

    Assigning to [req.session.user] throws when [req.session] is
    undefined; the [catch] turns that into the 500 answer.  The [try]
    also encloses the call of [next()]: what is stated below of
    [authenticated] is stated of handlers after it that do not throw
    while [next()] is running. *)
Definition authenticated (now : Z) : Middleware Ctx :=
  fun c =>
    match hasValidSession now (authorization (req c)) with
    | None =>
        reject HTTP_UNAUTHENTICATED
          "Authentication required. Please login to continue." c
    | Some jwtPayload =>
        match session (req c) with
        | None => reject HTTP_INTERNAL_SERVER_ERROR "Authentication check failed" c
        | Some _ =>
            ({| req := {| authorization := authorization (req c);
                          session := Some {| user := Some jwtPayload |};
                          params_tenantId := params_tenantId (req c);
                          body_tenantId := body_tenantId (req c) |};
                res := res c |},
             CallsNext VUndefined)
        end
    end.

End Jwt.

(** ** bcrypt, as the code uses it

    [genSalt] draws on the process's entropy, modelled by a counter in the
    world; all three calls can reject. *)

Class Bcrypt : Type := {
  bcrypt_genSalt : Z -> nat -> Exn + string;    (* rounds, entropy drawn *)
  bcrypt_hash : string -> string -> Exn + string;        (* data, salt *)
  bcrypt_compare : string -> string -> Exn + bool        (* data, hash *)
}.

(** ** entity/user.entity.ts: the columns *)

Module UserEntity.

(** A column that an entity object has not been given yet is
    [undefined], here [None]; the database fills [id], the defaults and
    the two timestamps on insert. *)
Record User : Type := mkUser {
  id : option string;
  email : string;
  firstName : option string;
  lastName : option string;
  password : string;
  isActive : option bool;
  roles : option (list string);
  refreshToken : option string;
  lastLoginAt : option Z;
  createdAt : option Z;
  updatedAt : option Z
}.

Definition with_password (u : User) (p : string) : User :=
  {| id := id u; email := email u; firstName := firstName u;
     lastName := lastName u; password := p; isActive := isActive u;
     roles := roles u; refreshToken := refreshToken u;
     lastLoginAt := lastLoginAt u; createdAt := createdAt u;
     updatedAt := updatedAt u |}.

Definition with_email (u : User) (e : string) : User :=
  {| id := id u; email := e; firstName := firstName u;
     lastName := lastName u; password := password u; isActive := isActive u;
     roles := roles u; refreshToken := refreshToken u;
     lastLoginAt := lastLoginAt u; createdAt := createdAt u;
     updatedAt := updatedAt u |}.

End UserEntity.

Abbreviation User := UserEntity.User.

(** ** The world the services run in *)

Record World : Type := mkWorld {
  users : list User;          (* the rows of the users table *)
  entropy : nat;              (* salts drawn so far *)
  clock : Z;                  (* seconds since the epoch *)
  uuids : nat;                (* ids generated so far *)
  db_fault : option Exn       (* the store is failing with this error *)
}.

(** The world after one more salt was drawn. *)
Definition draw (w : World) : World :=
  {| users := users w; entropy := S (entropy w); clock := clock w;
     uuids := uuids w; db_fault := db_fault w |}.

(** A computation that may throw (or reject) and may change the world. *)
Definition M (A : Type) : Type := World -> (Exn + A) * World.

Definition ret {A} (a : A) : M A := fun w => (inr a, w).

Definition bind {A B} (m : M A) (k : A -> M B) : M B :=
  fun w =>
    match m w with
    | (inr a, w') => k a w'
    | (inl e, w') => (inl e, w')
    end.

Definition throw {A} (e : Exn) : M A := fun w => (inl e, w).

(** [try { body } catch (error) { handler }] *)
Definition try_catch {A} (body : M A) (handler : Exn -> M A) : M A :=
  fun w =>
    match body w with
    | (inr a, w') => (inr a, w')
    | (inl e, w') => handler e w'
    end.

Definition lift {A} (r : Exn + A) : M A := fun w => (r, w).

Declare Scope world_scope.
Delimit Scope world_scope with world.
Notation "x <- c ;; k" := (bind c (fun x => k))
  (at level 61, c at next level, right associativity) : world_scope.
Notation "c ;;; k" := (bind c (fun _ => k))
  (at level 61, right associativity) : world_scope.
Local Open Scope world_scope.

(** ** core/common/error-handler.ts *)

(** [new AppError(message, name, statusCode)] *)
Definition AppError (msg nm : string) (code : Z) : Exn :=
  {| message := msg; name := nm; statusCode := Some code |}.

(** [throwError(message, statusCode)], the name left at its default. *)
Definition throwError {A} (msg : string) (code : Z) : M A :=
  throw (AppError msg "AppError" code).

(** ** core/common/bcrypt.ts *)

Section Hashing.

Context `{Bcrypt}.

Definition SALT_ROUNDS : Z := 10.

Definition genSalt (rounds : Z) : M string :=
  fun w => (bcrypt_genSalt rounds (entropy w), draw w).

Definition hashPassword (pw : string) : M string :=
  try_catch
    (salt <- genSalt SALT_ROUNDS ;;
     lift (bcrypt_hash pw salt))
    (fun error =>
       throwError
         (if message error =? "" then "Error hashing password"
          else message error)
         HTTP_INTERNAL_SERVER_ERROR).

Definition verifyPassword (plainPassword hashedPassword : string) : M bool :=
  try_catch
    (lift (bcrypt_compare plainPassword hashedPassword))
    (fun _ => throwError "Error verifying password" HTTP_INTERNAL_SERVER_ERROR).

(** ** entity/user.entity.ts: the methods *)

(** [hashPassword()], registered as [@BeforeInsert()] and
    [@BeforeUpdate()]. *)
Definition User_hashPassword (this : User) : M User :=
  if negb (UserEntity.password this =? "") then
    hashed <- hashPassword (UserEntity.password this) ;;
    ret (UserEntity.with_password this hashed)
  else ret this.

Definition User_validatePassword (this : User) (pw : string) : M bool :=
  verifyPassword pw (UserEntity.password this).

End Hashing.

(** ** typeorm's [Repository<User>], as the code uses it

    The table is the list of rows.  [save] on an entity without a row
    inserts it, after the [@BeforeInsert] listeners; on an entity whose
    row exists it compares the columns with the row, does nothing when
    none differs, and otherwise runs the [@BeforeUpdate] listeners and
    writes the entity as they left it.  The INSERT is refused where the
    columns declared in the entity forbid it (a length, a missing value
    in a column that is not nullable, an email another row has); an
    UPDATE of a row that was read is taken as accepted, and a lookup
    compares the key as it is written. *)

Definition option_eqb {A} (eqb : A -> A -> bool) (a b : option A) : bool :=
  match a, b with
  | Some x, Some y => eqb x y
  | None, None => true
  | _, _ => false
  end.

Fixpoint list_eqb {A} (eqb : A -> A -> bool) (xs ys : list A) : bool :=
  match xs, ys with
  | [], [] => true
  | x :: xs', y :: ys' => eqb x y && list_eqb eqb xs' ys'
  | _, _ => false
  end.

Definition same_columns (a b : User) : bool :=
  (UserEntity.email a =? UserEntity.email b)
  && option_eqb String.eqb (UserEntity.firstName a) (UserEntity.firstName b)
  && option_eqb String.eqb (UserEntity.lastName a) (UserEntity.lastName b)
  && (UserEntity.password a =? UserEntity.password b)
  && option_eqb Bool.eqb (UserEntity.isActive a) (UserEntity.isActive b)
  && option_eqb (list_eqb String.eqb) (UserEntity.roles a) (UserEntity.roles b)
  && option_eqb String.eqb (UserEntity.refreshToken a) (UserEntity.refreshToken b)
  && option_eqb Z.eqb (UserEntity.lastLoginAt a) (UserEntity.lastLoginAt b).

Definition by_id (i : string) (u : User) : bool :=
  option_eqb String.eqb (UserEntity.id u) (Some i).

Definition by_email (e : string) (u : User) : bool :=
  UserEntity.email u =? e.

(** The n-th generated primary key. *)
Definition uuid_of (n : nat) : string :=
  "user-" ++ NilEmpty.string_of_uint (Nat.to_uint n).

Definition or_default {A} (o : option A) (d : A) : option A :=
  match o with
  | Some a => Some a
  | None => Some d
  end.

Definition db_guard : M unit :=
  fun w =>
    match db_fault w with
    | Some e => (inl e, w)
    | None => (inr tt, w)
    end.

(** [repository.create({ email, password })]: an entity object, nothing
    is stored yet. *)
Definition repository_create (e p : string) : User :=
  {| UserEntity.id := None; UserEntity.email := e;
     UserEntity.firstName := None; UserEntity.lastName := None;
     UserEntity.password := p; UserEntity.isActive := None;
     UserEntity.roles := None; UserEntity.refreshToken := None;
     UserEntity.lastLoginAt := None; UserEntity.createdAt := None;
     UserEntity.updatedAt := None |}.

(** [repository.findOne({ where })] *)
Definition findOne (where_ : User -> bool) : M (option User) :=
  db_guard ;;; (fun w => (inr (find where_ (users w)), w)).

(** What the driver throws when the database refuses a statement. *)
Definition QueryFailedError (msg : string) : Exn :=
  {| message := msg; name := "QueryFailedError"; statusCode := None |}.

Definition dquote : ascii := ascii_of_nat 34.

Definition quoted (s : string) : string :=
  String dquote (s ++ String dquote "").

Definition value_too_long (n : nat) : Exn :=
  QueryFailedError
    ("value too long for type character varying("
     ++ NilEmpty.string_of_uint (Nat.to_uint n) ++ ")").

Definition not_null_violation (column : string) : Exn :=
  QueryFailedError
    ("null value in column " ++ quoted column ++ " of relation "
     ++ quoted "users" ++ " violates not-null constraint").

(** The constraint on [users.email] has the name typeorm's default naming
    strategy derives from the table and the column. *)
Definition unique_violation : Exn :=
  QueryFailedError
    ("duplicate key value violates unique constraint "
     ++ quoted "UQ_97672ac88f789774dd47f7c8be3").

Definition longer_than (n : nat) (o : option string) : bool :=
  match o with
  | Some s => (n <? String.length s)%nat
  | None => false
  end.

(** The columns of the entity: [email] and [password] varchar(100),
    [firstName] and [lastName] varchar(50), [roles] varchar(20)[],
    [refreshToken] varchar(255); all but [refreshToken] and
    [lastLoginAt] not nullable, of which [id], [isActive], [roles] and the
    two timestamps have a default; [email] unique.  The values are fitted
    to their columns first, then the row is checked. *)
Definition insert_violation (u : User) (w : World) : option Exn :=
  if longer_than 100 (Some (UserEntity.email u)) then Some (value_too_long 100)
  else if longer_than 50 (UserEntity.firstName u) then Some (value_too_long 50)
  else if longer_than 50 (UserEntity.lastName u) then Some (value_too_long 50)
  else if longer_than 100 (Some (UserEntity.password u))
  then Some (value_too_long 100)
  else if match UserEntity.roles u with
          | Some rs => existsb (fun r => (20 <? String.length r)%nat) rs
          | None => false
          end
  then Some (value_too_long 20)
  else if longer_than 255 (UserEntity.refreshToken u)
  then Some (value_too_long 255)
  else
    match UserEntity.firstName u, UserEntity.lastName u with
    | None, _ => Some (not_null_violation "firstName")
    | Some _, None => Some (not_null_violation "lastName")
    | Some _, Some _ =>
        if existsb (by_email (UserEntity.email u)) (users w)
        then Some unique_violation
        else None
    end.

Definition insert_row (u : User) : M User :=
  fun w =>
    match insert_violation u w with
    | Some e => (inl e, w)
    | None =>
        let row :=
          {| UserEntity.id := or_default (UserEntity.id u) (uuid_of (uuids w));
             UserEntity.email := UserEntity.email u;
             UserEntity.firstName := UserEntity.firstName u;
             UserEntity.lastName := UserEntity.lastName u;
             UserEntity.password := UserEntity.password u;
             UserEntity.isActive := or_default (UserEntity.isActive u) false;
             UserEntity.roles := or_default (UserEntity.roles u) ["user"];
             UserEntity.refreshToken := UserEntity.refreshToken u;
             UserEntity.lastLoginAt := UserEntity.lastLoginAt u;
             UserEntity.createdAt := Some (clock w);
             UserEntity.updatedAt := Some (clock w) |} in
        (inr row,
         {| users := (users w ++ [row])%list; entropy := entropy w;
            clock := clock w; uuids := S (uuids w); db_fault := db_fault w |})
    end.

Definition update_row (u : User) : M User :=
  fun w =>
    let row :=
      {| UserEntity.id := UserEntity.id u;
         UserEntity.email := UserEntity.email u;
         UserEntity.firstName := UserEntity.firstName u;
         UserEntity.lastName := UserEntity.lastName u;
         UserEntity.password := UserEntity.password u;
         UserEntity.isActive := UserEntity.isActive u;
         UserEntity.roles := UserEntity.roles u;
         UserEntity.refreshToken := UserEntity.refreshToken u;
         UserEntity.lastLoginAt := UserEntity.lastLoginAt u;
         UserEntity.createdAt := UserEntity.createdAt u;
         UserEntity.updatedAt := Some (clock w) |} in
    (inr row,
     {| users := map (fun r => if option_eqb String.eqb (UserEntity.id r)
                                    (UserEntity.id u)
                               then row else r) (users w);
        entropy := entropy w; clock := clock w; uuids := uuids w;
        db_fault := db_fault w |}).

(** *** services/user: the shapes it passes around *)

Module UserService.

(** [Partial<{ email, password }>]: a key that is absent is [None]. *)
Record UpdateData : Type := mkUpdateData {
  upd_email : option string;
  upd_password : option string
}.

(** [Object.assign(user, updateData)] *)
Definition Object_assign (u : User) (d : UpdateData) : User :=
  let u1 := match upd_email d with
            | Some e => UserEntity.with_email u e
            | None => u
            end in
  match upd_password d with
  | Some p => UserEntity.with_password u1 p
  | None => u1
  end.

(** [{ user: { id, email }, token }] *)
Record Authenticated : Type := mkAuthenticated {
  auth_id : option string;
  auth_email : string;
  token : string
}.

End UserService.
Import UserService.

Section Services.

Context `{Bcrypt} `{JsonWebToken} `{ProcessEnv}.

(** [repository.save(entity)] *)
Definition save (u : User) : M User :=
  db_guard ;;;
  (stored <- (fun w =>
                (inr match UserEntity.id u with
                     | Some i => find (by_id i) (users w)
                     | None => None
                     end, w)) ;;
   match stored with
   | None =>
       u' <- User_hashPassword u ;;        (* @BeforeInsert *)
       insert_row u'
   | Some row =>
       if same_columns row u then ret u
       else
         u' <- User_hashPassword u ;;      (* @BeforeUpdate *)
         update_row u'
   end).

(** *** services/user *)

Definition createUser (e pw : string) : M User :=
  save (repository_create e pw).

(** A row read from the table has its [id]. *)
Definition id_of (u : User) : string :=
  match UserEntity.id u with
  | Some i => i
  | None => ""
  end.

Definition authenticateUser (e pw : string) : M Authenticated :=
  found <- findOne (by_email e) ;;
  match found with
  | None => throwError "User not found" HTTP_NOT_FOUND
  | Some u =>
      isPasswordValid <- User_validatePassword u pw ;;
      if negb isPasswordValid
      then throwError "Invalid password" HTTP_UNAUTHENTICATED
      else
        tok <- (fun w =>
                  (inr (generateToken (clock w)
                          {| userId := id_of u; email := UserEntity.email u;
                             roles := None; tenantId := None |}), w)) ;;
        ret {| auth_id := UserEntity.id u; auth_email := UserEntity.email u;
               token := tok |}
  end.

Definition getUserById (i : string) : M (option User) := findOne (by_id i).

Definition findUserByEmail (e : string) : M (option User) :=
  findOne (by_email e).

Definition updateUser (i : string) (updateData : UpdateData) : M User :=
  found <- findOne (by_id i) ;;
  match found with
  | None => throwError "User not found" HTTP_NOT_FOUND
  | Some u => save (Object_assign u updateData)
  end.

(** [UserService.verifyPassword] calls [bcrypt.compare] itself. *)
Definition UserService_verifyPassword (pw hashedPassword : string) : M bool :=
  lift (bcrypt_compare pw hashedPassword).

(** *** services/auth *)

(** The [try] block of [login]. *)
Definition login_attempt (e pw : string) : M (option User) :=
  found <- findUserByEmail e ;;
  match found with
  | None => throwError "User not found" HTTP_NOT_FOUND
  | Some u =>
      isValidPassword <-
        UserService_verifyPassword pw (UserEntity.password u) ;;
      if negb isValidPassword
      then throwError "Invalid password" HTTP_UNAUTHENTICATED
      else ret (Some u)
  end.

(** [Promise<User | null>]: [None] in the result is [null]. *)
Definition login (e pw : string) : M (option User) :=
  try_catch
    (login_attempt e pw)
    (fun error =>
       throwError ("Login failed: " ++ message error) HTTP_UNAUTHENTICATED).

Definition signup (e pw : string) : M User :=
  try_catch
    (existingUser <- findUserByEmail e ;;
     match existingUser with
     | Some _ => throwError "User already exists" HTTP_BAD_REQUEST
     | None => createUser e pw
     end)
    (fun error =>
       throwError ("Signup failed: " ++ message error) HTTP_BAD_REQUEST).

Definition changePassword (i currentPassword newPassword : string) : M bool :=
  try_catch
    (found <- getUserById i ;;
     match found with
     | None => throwError "User not found" HTTP_NOT_FOUND
     | Some u =>
         isValidPassword <-
           UserService_verifyPassword currentPassword (UserEntity.password u) ;;
         if negb isValidPassword
         then throwError "Current password is incorrect" HTTP_UNAUTHENTICATED
         else
           hashed <- hashPassword newPassword ;;
           updateUser i {| upd_email := None; upd_password := Some hashed |} ;;;
           ret true
     end)
    (fun error =>
       throwError ("Password change failed: " ++ message error)
         HTTP_BAD_REQUEST).

End Services.

(** ** The rest of core/common/error-handler.ts *)

Definition throwValidationError {A} (msg : string) : M A :=
  throw (AppError msg VALIDATION_ERROR HTTP_BAD_REQUEST).

(** The message parameter has a default; [None] is a call without it. *)
Definition throwAuthenticationError {A} (msg : option string) : M A :=
  throw (AppError
           match msg with Some m => m | None => "Authentication failed" end
           AUTHENTICATION_ERROR HTTP_UNAUTHENTICATED).

Definition throwInternalError {A} (msg : option string) : M A :=
  throw (AppError
           match msg with Some m => m | None => "Internal Server Error" end
           "INTERNAL_ERROR" HTTP_INTERNAL_SERVER_ERROR).

(** The payload the error handler sends: [{ error, stack }], the [stack]
    key missing when it is undefined. *)
Record ErrorBody : Type := mkErrorBody {
  body_error : string;
  body_stack : option Exn
}.

(** The response object as the error handler drives it: [res.status]
    sets [statusCode]; [res.json] sends the payload with the status code
    of that moment.  Once something was sent, a further [res.json] throws
    (it sets a header after the headers went out). *)
Record ServerResponse : Type := mkServerResponse {
  statusCode_now : Z;
  wire : option (Z * ErrorBody)       (* what went out to the client *)
}.

Definition new_response : ServerResponse :=
  {| statusCode_now := HTTP_OK; wire := None |}.

Definition ERR_HTTP_HEADERS_SENT : Exn :=
  {| message := "Cannot set headers after they are sent to the client";
     name := "Error"; statusCode := None |}.

Definition res_status (code : Z) (r : ServerResponse) : ServerResponse :=
  {| statusCode_now := code; wire := wire r |}.

Definition res_json (b : ErrorBody) (r : ServerResponse)
  : (Exn + unit) * ServerResponse :=
  match wire r with
  | Some _ => (inl ERR_HTTP_HEADERS_SENT, r)
  | None =>
      (inr tt, {| statusCode_now := statusCode_now r;
                   wire := Some (statusCode_now r, b) |})
  end.

(** [process.env.NODE_ENV === 'development'] *)
Definition is_development (node_env : option string) : bool :=
  option_eqb String.eqb node_env (Some "development").

(** [errorHandler(err, req, res, next)]; [node_env] is
    [process.env.NODE_ENV].  The three [if]/default blocks follow one
    another without a [return] between them.  The [console.error] of the
    stack is left out. *)
Definition errorHandler (node_env : option string) (err : Exn)
    (r : ServerResponse) : (Exn + unit) * ServerResponse :=
  let stack := if is_development node_env then Some err else None in
  let after_validation :=
    if name err =? VALIDATION_ERROR then
      res_json {| body_error := if message err =? "" then "Validation failed"
                                else message err;
                  body_stack := stack |}
               (res_status HTTP_BAD_REQUEST r)
    else (inr tt, r) in
  match after_validation with
  | (inl e, r1) => (inl e, r1)
  | (inr _, r1) =>
      let after_authentication :=
        if name err =? AUTHENTICATION_ERROR then
          res_json {| body_error := "Authentication failed";
                      body_stack := None |}
                   (res_status HTTP_UNAUTHENTICATED r1)
        else (inr tt, r1) in
      match after_authentication with
      | (inl e, r2) => (inl e, r2)
      | (inr _, r2) =>
          res_json {| body_error := "Internal Server Error";
                      body_stack := stack |}
                   (res_status HTTP_INTERNAL_SERVER_ERROR r2)
      end
  end.

(** ** The rest of core/common/bcrypt.ts, services/user and services/auth *)

(** [repository.remove(entity)]: the row with the entity's key goes; the
    entity comes back without its key. *)
Definition remove_row (u : User) : M User :=
  db_guard ;;;
  (fun w =>
     (inr {| UserEntity.id := None;
             UserEntity.email := UserEntity.email u;
             UserEntity.firstName := UserEntity.firstName u;
             UserEntity.lastName := UserEntity.lastName u;
             UserEntity.password := UserEntity.password u;
             UserEntity.isActive := UserEntity.isActive u;
             UserEntity.roles := UserEntity.roles u;
             UserEntity.refreshToken := UserEntity.refreshToken u;
             UserEntity.lastLoginAt := UserEntity.lastLoginAt u;
             UserEntity.createdAt := UserEntity.createdAt u;
             UserEntity.updatedAt := UserEntity.updatedAt u |},
      {| users := filter (fun r => negb (option_eqb String.eqb
                                           (UserEntity.id r) (UserEntity.id u)))
                         (users w);
         entropy := entropy w; clock := clock w; uuids := uuids w;
         db_fault := db_fault w |})).

Section MoreServices.

Context `{Bcrypt}.

Definition hashPasswordSync (pw : string) : M string :=
  try_catch
    (salt <- genSalt SALT_ROUNDS ;;
     lift (bcrypt_hash pw salt))
    (fun _ =>
       throwError "Error hashing password synchronously"
         HTTP_INTERNAL_SERVER_ERROR).

Definition verifyPasswordSync (plainPassword hashedPassword : string) : M bool :=
  try_catch
    (lift (bcrypt_compare plainPassword hashedPassword))
    (fun _ =>
       throwError "Error verifying password synchronously"
         HTTP_INTERNAL_SERVER_ERROR).

Definition deleteUser (i : string) : M User :=
  found <- findOne (by_id i) ;;
  match found with
  | None => throwError "User not found" HTTP_NOT_FOUND
  | Some u => remove_row u
  end.

Definition confirmPassword (e pw : string) : M bool :=
  try_catch
    (found <- findUserByEmail e ;;
     match found with
     | None => throwError "User not found" HTTP_NOT_FOUND
     | Some u =>
         isValidPassword <-
           UserService_verifyPassword pw (UserEntity.password u) ;;
         ret isValidPassword
     end)
    (fun error =>
       throwError ("Password confirmation failed: " ++ message error)
         HTTP_BAD_REQUEST).

End MoreServices.

(** ** core/db/index.ts: [DatabaseService.transaction]

    The query runner is followed by the calls made on it; which of them
    reject is a parameter.  The callback works on the data [U] it reaches
    through the runner. *)

Inductive RunnerCall : Type :=
| Connect
| StartTransaction
| CommitTransaction
| RollbackTransaction
| Release.

Record Runner (U : Type) : Type := mkRunner {
  calls : list RunnerCall;                 (* in the order they were made *)
  rejects : RunnerCall -> option Exn;      (* the calls that fail *)
  data : U
}.
Arguments mkRunner {U}.
Arguments calls {U}.
Arguments rejects {U}.
Arguments data {U}.

(** The runner [createQueryRunner()] returns: nothing was called on it. *)
Definition fresh_runner {U} (rej : RunnerCall -> option Exn) (d : U)
  : Runner U :=
  {| calls := []; rejects := rej; data := d |}.

Section Transaction.

Context {U T : Type}.

Definition Eff (A : Type) : Type := Runner U -> (Exn + A) * Runner U.

Definition runner_call (k : RunnerCall) : Eff unit :=
  fun r =>
    (match rejects r k with
     | Some e => inl e
     | None => inr tt
     end,
     {| calls := (calls r ++ [k])%list; rejects := rejects r; data := data r |}).

Definition run_callback (callback : U -> (Exn + T) * U) : Eff T :=
  fun r =>
    let '(result, d) := callback (data r) in
    (result, {| calls := calls r; rejects := rejects r; data := d |}).

Definition and_then {A B} (m : Eff A) (k : A -> Eff B) : Eff B :=
  fun r =>
    match m r with
    | (inr a, r') => k a r'
    | (inl e, r') => (inl e, r')
    end.

(** [try { body } catch (error) { handler } finally { cleanup }]: the
    cleanup runs in every case, and an error of the cleanup replaces
    whatever the rest had produced. *)
Definition try_catch_finally {A} (body : Eff A) (handler : Exn -> Eff A)
    (cleanup : Eff unit) : Eff A :=
  fun r =>
    let '(outcome, r1) :=
      match body r with
      | (inr a, r') => (inr a, r')
      | (inl e, r') => handler e r'
      end in
    match cleanup r1 with
    | (inr _, r2) => (outcome, r2)
    | (inl e, r2) => (inl e, r2)
    end.

Definition transaction (callback : U -> (Exn + T) * U) : Eff T :=
  and_then (runner_call Connect) (fun _ =>
  and_then (runner_call StartTransaction) (fun _ =>
  try_catch_finally
    (and_then (run_callback callback) (fun result =>
     and_then (runner_call CommitTransaction) (fun _ =>
     fun r => (inr result, r))))
    (fun error =>
       and_then (runner_call RollbackTransaction) (fun _ =>
       fun r => (inl error, r)))
    (runner_call Release))).

End Transaction.

(** The request after [req.session.user = p]. *)
Definition attach (p : TokenBody) (c : Ctx) : Ctx :=
  {| req := {| authorization := authorization (req c);
               session := Some {| user := Some p |};
               params_tenantId := params_tenantId (req c);
               body_tenantId := body_tenantId (req c) |};
     res := res c |}.

(** ** controllers/v1: the tenants route

    [router.get('/api/v1/tenants/:tenantId', authenticated, handler)]:
    the handler runs when [authenticated] called [next()]. *)

Section TenantsRoute.

Context `{JsonWebToken} `{ProcessEnv}.

(** [`Tenant ID: ${tenantId}`] *)
Definition tenant_message (r : Request) : string :=
  "Tenant ID: " ++ match params_tenantId r with
                   | Some t => t
                   | None => "undefined"
                   end.

Definition tenants_handler : Middleware Ctx :=
  fun c =>
    ({| req := req c;
        res := respond HTTP_OK (tenant_message (req c)) (res c) |}, NoNext).

Definition tenants_route (now : Z) : Middleware Ctx :=
  fun c =>
    match authenticated now c with
    | (c', CallsNext err) =>
        if truthy err then (c', CallsNext err) else tenants_handler c'
    | other => other
    end.

End TenantsRoute.

(** ** core/db/redis.ts

    The Redis server as the wrapper's calls see it: one keyspace whose
    keys hold a string (with or without an expiry) or a hash, and a
    clock; a key whose expiry has passed is gone.  [JSON.stringify] and
    [JSON.parse] at the value type [T] and at strings are operations of
    the platform. *)

Class Json (T : Type) : Type := {
  JSON_stringify : T -> string;
  JSON_parse : string -> Exn + T;
  JSON_stringify_string : string -> string;
  JSON_parse_string : string -> Exn + string
}.

(** What the platform guarantees: a JSON text parses back to the value
    it was made from, and it is never the empty string. *)
Record Json_ok {T} `{Json T} : Prop := {
  parse_stringify : forall v : T, JSON_parse (JSON_stringify v) = inr v;
  stringify_nonempty : forall v : T, JSON_stringify v <> "";
  parse_stringify_string :
    forall s, JSON_parse_string (JSON_stringify_string s) = inr s
}.
Arguments Json_ok T {_}.

Inductive RedisEntry : Type :=
| RString (v : string) (expires : option Z)
| RHash (fields : list (string * string)).

Record Redis : Type := mkRedis {
  keyspace : list (string * RedisEntry);
  redis_clock : Z;
  redis_fault : option Exn            (* the connection is failing *)
}.

Definition RM (A : Type) : Type := Redis -> (Exn + A) * Redis.

Fixpoint alist_get {V} (k : string) (l : list (string * V)) : option V :=
  match l with
  | [] => None
  | (k', v) :: rest => if k' =? k then Some v else alist_get k rest
  end.

Fixpoint alist_put {V} (k : string) (v : V) (l : list (string * V))
  : list (string * V) :=
  match l with
  | [] => [(k, v)]
  | (k', v') :: rest =>
      if k' =? k then (k, v) :: rest else (k', v') :: alist_put k v rest
  end.

Fixpoint alist_remove {V} (k : string) (l : list (string * V))
  : list (string * V) :=
  match l with
  | [] => []
  | (k', v') :: rest =>
      if k' =? k then alist_remove k rest else (k', v') :: alist_remove k rest
  end.

(** The entry a key holds now. *)
Definition live (k : string) (r : Redis) : option RedisEntry :=
  match alist_get k (keyspace r) with
  | Some (RString v (Some t)) =>
      if (t <=? redis_clock r)%Z then None else Some (RString v (Some t))
  | other => other
  end.

Definition with_keyspace (ks : list (string * RedisEntry)) (r : Redis) : Redis :=
  {| keyspace := ks; redis_clock := redis_clock r;
     redis_fault := redis_fault r |}.


Definition WRONGTYPE : Exn :=
  {| message :=
       "WRONGTYPE Operation against a key holding the wrong kind of value";
     name := "ErrorReply"; statusCode := None |}.

Definition invalid_expire : Exn :=
  {| message := "ERR invalid expire time in 'setex' command";
     name := "ErrorReply"; statusCode := None |}.

Definition connected {A} (cmd : RM A) : RM A :=
  fun r =>
    match redis_fault r with
    | Some e => (inl e, r)
    | None => cmd r
    end.

Definition client_set (k v : string) : RM unit :=
  connected (fun r =>
    (inr tt, with_keyspace (alist_put k (RString v None) (keyspace r)) r)).

Definition out_of_range : Exn :=
  {| message := "ERR value is not an integer or out of range";
     name := "ErrorReply"; statusCode := None |}.

(** The largest signed 64-bit integer. *)
Definition LLONG_MAX : Z := 9223372036854775807.

(** The server reads the seconds as a signed 64-bit integer, refuses
    what is not positive or exceeds [LLONG_MAX / 1000], and refuses an
    expiry instant that no longer fits in 64 bits of milliseconds. *)
Definition client_setEx (k : string) (seconds : Z) (v : string) : RM unit :=
  connected (fun r =>
    if (seconds <? - LLONG_MAX - 1)%Z || (LLONG_MAX <? seconds)%Z
    then (inl out_of_range, r)
    else if (seconds <=? 0)%Z || (LLONG_MAX / 1000 <? seconds)%Z
            || (LLONG_MAX <? (redis_clock r + seconds) * 1000)%Z
    then (inl invalid_expire, r)
    else (inr tt,
          with_keyspace
            (alist_put k (RString v (Some (redis_clock r + seconds)%Z))
               (keyspace r)) r)).

Definition client_get (k : string) : RM (option string) :=
  connected (fun r =>
    match live k r with
    | None => (inr None, r)
    | Some (RString v _) => (inr (Some v), r)
    | Some (RHash _) => (inl WRONGTYPE, r)
    end).

Definition client_del (k : string) : RM unit :=
  connected (fun r =>
    (inr tt, with_keyspace (alist_remove k (keyspace r)) r)).

Definition client_exists (k : string) : RM Z :=
  connected (fun r =>
    (inr match live k r with Some _ => 1%Z | None => 0%Z end, r)).

Definition client_hSet (k field v : string) : RM unit :=
  connected (fun r =>
    match live k r with
    | None =>
        (inr tt, with_keyspace (alist_put k (RHash [(field, v)]) (keyspace r)) r)
    | Some (RHash fields) =>
        (inr tt,
         with_keyspace
           (alist_put k (RHash (alist_put field v fields)) (keyspace r)) r)
    | Some (RString _ _) => (inl WRONGTYPE, r)
    end).

Definition client_hGet (k field : string) : RM (option string) :=
  connected (fun r =>
    match live k r with
    | None => (inr None, r)
    | Some (RHash fields) => (inr (alist_get field fields), r)
    | Some (RString _ _) => (inl WRONGTYPE, r)
    end).

Definition client_hGetAll (k : string) : RM (list (string * string)) :=
  connected (fun r =>
    match live k r with
    | None => (inr [], r)
    | Some (RHash fields) => (inr fields, r)
    | Some (RString _ _) => (inl WRONGTYPE, r)
    end).

(** [String(error)] *)
Definition Error_toString (e : Exn) : string :=
  if name e =? "" then message e
  else if message e =? "" then name e
  else name e ++ ": " ++ message e.

Section RedisService.

Context {T : Type} `{Json T}.

(** [try { body } catch (error) { throwError(prefix + error.message, 500) }] *)
Definition rethrow_500 {A} (prefix : string) (body : RM A) : RM A :=
  fun r =>
    match body r with
    | (inr a, r') => (inr a, r')
    | (inl e, r') =>
        (inl (AppError (prefix ++ message e) "AppError"
                HTTP_INTERNAL_SERVER_ERROR), r')
    end.

(** [expireInSeconds] is optional; [None] is a call without it. *)
Definition redis_set (k : string) (v : T) (expireInSeconds : option Z)
  : RM unit :=
  rethrow_500 "Error setting Redis key: "
    (let serializedValue := JSON_stringify v in
     match expireInSeconds with
     | Some n =>
         if (n =? 0)%Z then client_set k serializedValue
         else client_setEx k n serializedValue
     | None => client_set k serializedValue
     end).

Definition redis_get (k : string) : RM (option T) :=
  rethrow_500 "Error getting Redis key: "
    (fun r =>
       match client_get k r with
       | (inl e, r') => (inl e, r')
       | (inr None, r') => (inr None, r')
       | (inr (Some value), r') =>
           if value =? "" then (inr None, r')
           else match JSON_parse value with
                | inl e => (inl e, r')
                | inr v => (inr (Some v), r')
                end
       end).

Definition redis_delete (k : string) : RM unit :=
  rethrow_500 "Error deleting Redis key: " (client_del k).

Definition redis_exists (k : string) : RM bool :=
  rethrow_500 "Error checking Redis key existence: "
    (fun r =>
       match client_exists k r with
       | (inl e, r') => (inl e, r')
       | (inr n, r') => (inr (n =? 1)%Z, r')
       end).

Definition redis_setHash (k field : string) (v : T) : RM unit :=
  rethrow_500 "Error setting Redis hash: "
    (client_hSet k field (JSON_stringify v)).

(** The value read is a string, and [JSON.parse(JSON.stringify(value))]
    of a string is a string: that is what comes back, typed as [T]. *)
Definition redis_getHash (k field : string) : RM (option string) :=
  rethrow_500 "Error getting Redis hash: "
    (fun r =>
       match client_hGet k field r with
       | (inl e, r') => (inl e, r')
       | (inr None, r') => (inr None, r')
       | (inr (Some value), r') =>
           if value =? "" then (inr None, r')
           else match JSON_parse_string (JSON_stringify_string value) with
                | inl e => (inl e, r')
                | inr s => (inr (Some s), r')
                end
       end).

Fixpoint parse_entries (entries : list (string * string))
  : Exn + list (string * T) :=
  match entries with
  | [] => inr []
  | (field, value) :: rest =>
      match JSON_parse value with
      | inl e => inl e
      | inr v =>
          match parse_entries rest with
          | inl e => inl e
          | inr parsed => inr ((field, v) :: parsed)
          end
      end
  end.

Definition redis_getAllHash (k : string) : RM (list (string * T)) :=
  fun r =>
    let rethrow e :=
      {| message := "Error getting all Redis hash values: " ++ Error_toString e;
         name := "Error"; statusCode := None |} in
    match client_hGetAll k r with
    | (inl e, r') => (inl (rethrow e), r')
    | (inr hash, r') =>
        match parse_entries hash with
        | inl e => (inl (rethrow e), r')
        | inr result => (inr result, r')
        end
    end.

End RedisService.

(** ** Stand-ins for the libraries

    Small executable instances of the two library interfaces, to run the
    model on concrete requests.  The token format is a self-delimiting
    bit string written with the characters 0 and 1; the hash keeps the
    salt in front of the data, as bcrypt's output does. *)

Module Reference.

Definition bits : Type := list bool.

Fixpoint enc_pos (p : positive) : bits :=
  match p with
  | xH => [false]
  | xO q => true :: false :: enc_pos q
  | xI q => true :: true :: enc_pos q
  end.

Fixpoint dec_pos (l : bits) : option (positive * bits) :=
  match l with
  | false :: r => Some (xH, r)
  | true :: b :: r =>
      match dec_pos r with
      | Some (q, r') => Some (if b then xI q else xO q, r')
      | None => None
      end
  | _ => None
  end.

Definition enc_Z (z : Z) : bits :=
  match z with
  | Z0 => [false]
  | Zpos p => true :: false :: enc_pos p
  | Zneg p => true :: true :: enc_pos p
  end.

Definition dec_Z (l : bits) : option (Z * bits) :=
  match l with
  | false :: r => Some (Z0, r)
  | true :: sign :: r =>
      match dec_pos r with
      | Some (p, r') => Some (if sign then Zneg p else Zpos p, r')
      | None => None
      end
  | _ => None
  end.

Definition enc_ascii (c : ascii) : bits :=
  let '(Ascii b0 b1 b2 b3 b4 b5 b6 b7) := c in
  [b0; b1; b2; b3; b4; b5; b6; b7].

Definition dec_ascii (l : bits) : option (ascii * bits) :=
  match l with
  | b0 :: b1 :: b2 :: b3 :: b4 :: b5 :: b6 :: b7 :: r =>
      Some (Ascii b0 b1 b2 b3 b4 b5 b6 b7, r)
  | _ => None
  end.

Fixpoint enc_string (s : string) : bits :=
  match s with
  | EmptyString => [false]
  | String c rest => (true :: enc_ascii c ++ enc_string rest)%list
  end.

(** The recursion is on the number of bits still to read. *)
Fixpoint dec_string_fuel (fuel : nat) (l : bits) : option (string * bits) :=
  match fuel with
  | O => None
  | S fuel' =>
      match l with
      | false :: r => Some (EmptyString, r)
      | true :: r =>
          match dec_ascii r with
          | Some (c, r') =>
              match dec_string_fuel fuel' r' with
              | Some (s, r'') => Some (String c s, r'')
              | None => None
              end
          | None => None
          end
      | [] => None
      end
  end.

Definition dec_string (l : bits) : option (string * bits) :=
  dec_string_fuel (S (length l)) l.

Definition enc_option {A} (enc : A -> bits) (o : option A) : bits :=
  match o with
  | None => [false]
  | Some a => true :: enc a
  end.

Definition dec_option {A} (dec : bits -> option (A * bits)) (l : bits)
  : option (option A * bits) :=
  match l with
  | false :: r => Some (None, r)
  | true :: r =>
      match dec r with
      | Some (a, r') => Some (Some a, r')
      | None => None
      end
  | [] => None
  end.

Fixpoint enc_strings (xs : list string) : bits :=
  match xs with
  | [] => [false]
  | x :: rest => (true :: enc_string x ++ enc_strings rest)%list
  end.

Fixpoint dec_strings_fuel (fuel : nat) (l : bits)
  : option (list string * bits) :=
  match fuel with
  | O => None
  | S fuel' =>
      match l with
      | false :: r => Some ([], r)
      | true :: r =>
          match dec_string r with
          | Some (x, r') =>
              match dec_strings_fuel fuel' r' with
              | Some (xs, r'') => Some (x :: xs, r'')
              | None => None
              end
          | None => None
          end
      | [] => None
      end
  end.

Definition dec_strings (l : bits) : option (list string * bits) :=
  dec_strings_fuel (S (length l)) l.

Definition enc_body (b : TokenBody) : bits :=
  (enc_string (userId (claims b))
   ++ enc_string (email (claims b))
   ++ enc_option enc_strings (roles (claims b))
   ++ enc_option enc_string (tenantId (claims b))
   ++ enc_Z (iat b)
   ++ enc_Z (exp b))%list.

Definition dec_body (l : bits) : option (TokenBody * bits) :=
  match dec_string l with
  | Some (uid, l1) =>
  match dec_string l1 with
  | Some (em, l2) =>
  match dec_option dec_strings l2 with
  | Some (rs, l3) =>
  match dec_option dec_string l3 with
  | Some (tn, l4) =>
  match dec_Z l4 with
  | Some (i, l5) =>
  match dec_Z l5 with
  | Some (e, l6) =>
      Some ({| claims := {| userId := uid; email := em; roles := rs;
                            tenantId := tn |};
               iat := i; exp := e |}, l6)
  | None => None end
  | None => None end
  | None => None end
  | None => None end
  | None => None end
  | None => None end.

Fixpoint string_of_bits (l : bits) : string :=
  match l with
  | [] => EmptyString
  | b :: r => String (if b then "1"%char else "0"%char) (string_of_bits r)
  end.

Fixpoint bits_of_string (s : string) : option bits :=
  match s with
  | EmptyString => Some []
  | String c r =>
      match bits_of_string r with
      | Some l =>
          if Ascii.eqb c "1" then Some (true :: l)
          else if Ascii.eqb c "0" then Some (false :: l)
          else None
      | None => None
      end
  end.

#[export] Instance jsonwebtoken : JsonWebToken := {
  jws_encode b sg := string_of_bits (enc_body b ++ enc_string sg)%list;
  jws_decode t :=
    match bits_of_string t with
    | Some l =>
        match dec_body l with
        | Some (b, r) =>
            match dec_string r with
            | Some (sg, []) => Some (b, sg)
            | _ => None
            end
        | None => None
        end
    | None => None
    end;
  hmac secret b := secret ++ "." ++ string_of_bits (enc_body b)
}.

(** Everything after the first dollar sign of a hash is the data. *)
Definition after_salt (h : string) : option string :=
  match index 0 "$" h with
  | Some k => Some (substring (S k) (String.length h - S k) h)
  | None => None
  end.

#[export] Instance bcrypt : Bcrypt := {
  bcrypt_genSalt rounds n :=
    inr ("salt" ++ NilEmpty.string_of_uint (Nat.to_uint n) ++ "$");
  bcrypt_hash data salt := inr (salt ++ data);
  bcrypt_compare data h :=
    inr match after_salt h with
        | Some d => d =? data
        | None => false
        end
}.

#[export] Instance env : ProcessEnv := {
  env_JWT_SECRET := None
}.

End Reference.

(** ** Requests and guards to run the model on *)




Definition principal (rs : option (list string)) (tn : option string)
  : TokenBody :=
  {| claims := {| userId := "u1"; email := "a@b.com"; roles := rs;
                  tenantId := tn |};
     iat := 0; exp := TOKEN_EXPIRATION |}.

Definition ctx_of (u : option TokenBody) (param : option string) (body : value)
  : Ctx :=
  {| req := {| authorization := None; session := Some {| user := u |};
               params_tenantId := param; body_tenantId := body |};
     res := fresh_response |}.

Definition alice_claims : JWTPayload :=
  {| userId := "u1"; email := "a@b.com"; roles := Some ["manager"];
     tenantId := Some "t1" |}.

Definition alice_row : User :=
  {| UserEntity.id := Some "u1"; UserEntity.email := "a@b.com";
     UserEntity.firstName := Some "Alice"; UserEntity.lastName := Some "Liddell";
     UserEntity.password := "salt9$secret123";
     UserEntity.isActive := Some true; UserEntity.roles := Some ["user"];
     UserEntity.refreshToken := None; UserEntity.lastLoginAt := None;
     UserEntity.createdAt := Some 0%Z; UserEntity.updatedAt := Some 0%Z |}.

Definition world0 : World :=
  {| users := [alice_row]; entropy := 0; clock := 1000; uuids := 1;
     db_fault := None |}.

(** A bcrypt that rejects every call. *)
Definition failing_bcrypt : Bcrypt :=
  {| bcrypt_genSalt := fun _ _ =>
       inl {| message := "not enough entropy"; name := "Error";
              statusCode := None |};
     bcrypt_hash := fun _ _ =>
       inl {| message := "data and salt arguments required"; name := "Error";
              statusCode := None |};
     bcrypt_compare := fun _ _ =>
       inl {| message := "data and hash arguments required"; name := "Error";
              statusCode := None |} |}.

(** A JSON for booleans and for strings without escapes, and an empty
    Redis, to run the wrapper on. *)
Fixpoint drop_last (s : string) : string :=
  match s with
  | EmptyString => EmptyString
  | String c rest =>
      match rest with
      | EmptyString => EmptyString
      | String _ _ => String c (drop_last rest)
      end
  end.

Definition SyntaxError : Exn :=
  {| message := "Unexpected token in JSON"; name := "SyntaxError";
     statusCode := None |}.

Definition bool_json : Json bool :=
  {| JSON_stringify := fun b : bool => if b then "true" else "false";
     JSON_parse := fun t =>
       if t =? "true" then inr true
       else if t =? "false" then inr false
       else inl SyntaxError;
     JSON_stringify_string := fun s => String dquote (s ++ String dquote "");
     JSON_parse_string := fun t =>
       match t with
       | String c rest =>
           if Ascii.eqb c dquote then inr (drop_last rest) else inl SyntaxError
       | EmptyString => inl SyntaxError
       end |}.

Definition empty_redis : Redis :=
  {| keyspace := []; redis_clock := 0; redis_fault := None |}.

(** * Properties *)

Section ComposeFacts.

Context {St : Type}.
Implicit Types (ms : list (Middleware St)) (s : St).

Lemma executeMiddleware_at ms index s m :
  nth_error ms index = Some m ->
  executeMiddleware ms index s =
    match m s with
    | (s', CallsNext err) =>
        if truthy err then (s', CallsNext err)
        else executeMiddleware ms (index + 1) s'
    | (s', NoNext) => (s', NoNext)
    | (s', Throws e) => (s', Throws e)
    end.
Proof.
  intros Hm.
  assert (Hlt : index < length ms) by (apply nth_error_Some; congruence).
  simp executeMiddleware.
  replace (index =? length ms)%nat with false
    by (symmetry; apply Nat.eqb_neq; lia).
  cbn [executeMiddleware_unfold_clause_1].
  generalize (inspect (nth_error ms index)). intros [[m'|] Ho]; [|congruence].
  assert (m' = m) by congruence. subst m'.
  reflexivity.
Qed.

Lemma executeMiddleware_end ms s :
  executeMiddleware ms (length ms) s = (s, CallsNext VUndefined).
Proof.
  simp executeMiddleware. rewrite Nat.eqb_refl. reflexivity.
Qed.

Lemma executeMiddleware_suffix post : forall pre s,
  executeMiddleware (pre ++ post)%list (length pre) s = evaluate_in_order post s.
Proof.
  induction post as [|m post IH]; intros pre s.
  - rewrite app_nil_r. apply executeMiddleware_end.
  - rewrite (executeMiddleware_at _ _ _ m).
    2:{ rewrite nth_error_app2, Nat.sub_diag by lia. reflexivity. }
    specialize (IH (pre ++ [m])%list).
    rewrite <- app_assoc, length_app in IH. simpl in IH.
    simpl. destruct (m s) as [s' [err| |e]]; try reflexivity.
    destruct (truthy err); [reflexivity | apply IH].
Qed.

Lemma authorizeMultiple_in_order ms s :
  authorizeMultiple ms s = evaluate_in_order ms s.
Proof. apply (executeMiddleware_suffix ms []). Qed.






End ComposeFacts.

(** ** Guard composition *)

Section ComposeClaims.

Context {St : Type}.


End ComposeClaims.


(** ** The role guard and the tenant guard *)

Lemma includes_In xs x : includes xs x = true <-> In x xs.
Proof.
  unfold includes. rewrite existsb_exists. split.
  - intros (y & Hy & Heq). apply String.eqb_eq in Heq. subst. assumption.
  - intros Hx. exists x. split; [assumption | apply String.eqb_refl].
Qed.

Lemma hasRequiredRole_intersects (allowed : list UserRole) (rs : list string) :
  some (fun role => includes (map UserRole_value allowed) role) rs = true <->
  exists r, In r allowed /\ In (UserRole_value r) rs.
Proof.
  unfold some. rewrite existsb_exists. split.
  - intros (x & Hx & Hin). apply includes_In, in_map_iff in Hin.
    destruct Hin as (r & <- & Hr). exists r. split; assumption.
  - intros (r & Hr & Hin). exists (UserRole_value r). split; [assumption|].
    apply includes_In, in_map. assumption.
Qed.

(** C4. For a principal that carries a roles array, [hasRole allowed]
    passes (calls [next()], touching neither request nor response)
    exactly when one of the allowed roles is among the principal's;
    otherwise it sends status 403 with the message "Forbidden -
    Insufficient permissions" and does not call [next].  With no
    principal on the request it sends status 401 with the message
    "Unauthorized - User not authenticated" and does not call [next].
    The two rejections leave different status codes on the response. *)
Theorem hasRole_correct (allowed : list UserRole) (c : Ctx) :
  let forbidden :=
    ({| req := req c;
        res := {| status := 403;
                  sent := Some "Forbidden - Insufficient permissions" |} |},
     NoNext) in
  let unauthenticated :=
    ({| req := req c;
        res := {| status := 401;
                  sent := Some "Unauthorized - User not authenticated" |} |},
     NoNext) in
  (forall u rs,
      session_user (req c) = Some u -> roles (claims u) = Some rs ->
      ((exists r, In r allowed /\ In (UserRole_value r) rs) ->
         hasRole allowed c = (c, CallsNext VUndefined))
      /\ (~ (exists r, In r allowed /\ In (UserRole_value r) rs) ->
         hasRole allowed c = forbidden
         /\ status (res (fst (hasRole allowed c))) = 403%Z)
      /\ (passes (snd (hasRole allowed c)) = true <->
          exists r, In r allowed /\ In (UserRole_value r) rs))
  /\ (session_user (req c) = None ->
      hasRole allowed c = unauthenticated
      /\ status (res (fst (hasRole allowed c))) = 401%Z)
  /\ status (res (fst forbidden)) <> status (res (fst unauthenticated)).
Proof.
  cbv zeta. split; [|split; [|discriminate]].
  - intros u rs Hu Hrs. unfold hasRole. rewrite Hu, Hrs.
    pose proof (hasRequiredRole_intersects allowed rs) as Hiff.
    destruct (some _ rs) eqn:Hsome; simpl.
    + split; [reflexivity|]. split.
      * intros Hno. exfalso. apply Hno, Hiff. reflexivity.
      * split; [intros _; apply Hiff; reflexivity | reflexivity].
    + split; [|split].
      * intros Hyes. apply Hiff in Hyes. discriminate.
      * intros _. split; reflexivity.
      * split; [discriminate|]. intros Hyes. apply Hiff in Hyes.
        discriminate.
  - intros Hu. unfold hasRole. rewrite Hu. split; reflexivity.
Qed.

Lemma hasRole_correct_witness :
  let c := ctx_of (Some (principal (Some ["manager"]) None)) None VUndefined in
  hasRole [ADMIN; MANAGER] c = (c, CallsNext VUndefined)
  /\ hasRole [ADMIN] c =
       ({| req := req c;
           res := {| status := 403;
                     sent := Some "Forbidden - Insufficient permissions" |} |},
        NoNext)
  /\ hasRole [ADMIN] (ctx_of None None VUndefined) =
       ({| req := req (ctx_of None None VUndefined);
           res := {| status := 401;
                     sent := Some "Unauthorized - User not authenticated" |} |},
        NoNext).
Proof.
  cbv zeta.
  set (u := principal (Some ["manager"]) None).
  set (c := ctx_of (Some u) None VUndefined).
  split; [|split].
  - apply (proj1 (hasRole_correct [ADMIN; MANAGER] c) u ["manager"]
             eq_refl eq_refl).
    exists MANAGER. simpl. split; [right; left|left]; reflexivity.
  - apply (proj1 (hasRole_correct [ADMIN] c) u ["manager"] eq_refl eq_refl).
    intros (r & [<- | []] & [Heq | []]). discriminate Heq.
  - apply (proj1 (proj2 (hasRole_correct [ADMIN]
                           (ctx_of None None VUndefined)))).
    reflexivity.
Defined.

(** C3. With a principal on the request, [belongsToTenant] passes
    (calls [next()], touching neither request nor response) exactly when
    the principal's [tenantId] is a non-empty string equal to the
    requested identifier, and otherwise sends status 403 with the
    message "Forbidden - Invalid tenant access" and does not call
    [next].  The requested identifier is the route parameter whenever the
    route carries one, whatever the body holds, and the body's
    [tenantId] when the route carries none.  A principal without
    [tenantId] is answered 403 for every request. *)
Theorem belongsToTenant_correct (c : Ctx) (u : TokenBody)
    (Hu : session_user (req c) = Some u) :
  let forbidden :=
    ({| req := req c;
        res := {| status := 403;
                  sent := Some "Forbidden - Invalid tenant access" |} |},
     NoNext) in
  ((exists t, tenantId (claims u) = Some t /\ t <> "" /\
              requestedTenantId (req c) = VString t) ->
     belongsToTenant c = (c, CallsNext VUndefined))
  /\ (~ (exists t, tenantId (claims u) = Some t /\ t <> "" /\
                   requestedTenantId (req c) = VString t) ->
     belongsToTenant c = forbidden
     /\ status (res (fst (belongsToTenant c))) = 403%Z)
  /\ (forall p, params_tenantId (req c) = Some p -> p <> "" ->
                requestedTenantId (req c) = VString p)
  /\ (params_tenantId (req c) = None \/ params_tenantId (req c) = Some "" ->
      requestedTenantId (req c) = body_tenantId (req c))
  /\ (forall t, tenantId (claims u) = Some t -> t <> "" ->
        (params_tenantId (req c) = Some t ->
           belongsToTenant c = (c, CallsNext VUndefined))
        /\ (params_tenantId (req c) = None ->
            body_tenantId (req c) = VString t ->
            belongsToTenant c = (c, CallsNext VUndefined))
        /\ (forall p, params_tenantId (req c) = Some p -> p <> "" ->
              p <> t -> belongsToTenant c = forbidden)
        /\ (params_tenantId (req c) = None ->
            body_tenantId (req c) <> VString t ->
            belongsToTenant c = forbidden))
  /\ (tenantId (claims u) = None -> belongsToTenant c = forbidden).
Proof.
  cbv zeta.
  assert (Hpass : forall t, tenantId (claims u) = Some t -> t <> "" ->
            requestedTenantId (req c) = VString t ->
            belongsToTenant c = (c, CallsNext VUndefined)).
  { intros t Ht Hne Hreq. unfold belongsToTenant. rewrite Hu, Ht, Hreq. simpl.
    apply String.eqb_neq in Hne. rewrite Hne, String.eqb_refl. reflexivity. }
  assert (Hfail :
    ~ (exists t, tenantId (claims u) = Some t /\ t <> "" /\
                 requestedTenantId (req c) = VString t) ->
    belongsToTenant c =
      ({| req := req c;
          res := {| status := 403;
                    sent := Some "Forbidden - Invalid tenant access" |} |},
       NoNext)).
  { intros Hno. unfold belongsToTenant. rewrite Hu.
    destruct (tenantId (claims u)) as [t|]; [|reflexivity].
    simpl. destruct (t =? "") eqn:Hempty; [reflexivity|]. simpl.
    destruct (requestedTenantId (req c)) as [| | | |s|]; try reflexivity.
    destruct (t =? s) eqn:Hts; [|reflexivity].
    exfalso. apply Hno. exists t. apply String.eqb_eq in Hts. subst s.
    apply String.eqb_neq in Hempty. auto. }
  assert (Hparam : forall p, params_tenantId (req c) = Some p -> p <> "" ->
            requestedTenantId (req c) = VString p).
  { intros p Hp Hne. unfold requestedTenantId. rewrite Hp.
    unfold or_else. simpl. apply String.eqb_neq in Hne. rewrite Hne.
    reflexivity. }
  assert (Hbody :
    params_tenantId (req c) = None \/ params_tenantId (req c) = Some "" ->
    requestedTenantId (req c) = body_tenantId (req c)).
  { unfold requestedTenantId. intros [-> | ->]; reflexivity. }
  split; [|split; [|split; [|split; [|split]]]].
  - intros (t & Ht & Hne & Hreq). exact (Hpass t Ht Hne Hreq).
  - intros Hno. split; [exact (Hfail Hno)|]. rewrite (Hfail Hno). reflexivity.
  - exact Hparam.
  - exact Hbody.
  - intros t Ht Hne. split; [|split; [|split]].
    + intros Hp. apply (Hpass t Ht Hne). apply Hparam; assumption.
    + intros Hp Hb. apply (Hpass t Ht Hne). rewrite Hbody by (left; exact Hp).
      exact Hb.
    + intros p Hp Hpne Hdiff. apply Hfail.
      intros (t' & Ht' & _ & Hreq). rewrite (Hparam p Hp Hpne) in Hreq.
      congruence.
    + intros Hp Hb. apply Hfail.
      intros (t' & Ht' & _ & Hreq). rewrite Hbody in Hreq by (left; exact Hp).
      congruence.
  - intros Hnone. apply Hfail. intros (t & Ht & _). congruence.
Qed.

Lemma belongsToTenant_correct_witness :
  let t1 := principal (Some ["user"]) (Some "t1") in
  let anon := principal (Some ["user"]) None in
  let forbidden c :=
    ({| req := req c;
        res := {| status := 403;
                  sent := Some "Forbidden - Invalid tenant access" |} |},
     NoNext) in
  belongsToTenant (ctx_of (Some t1) (Some "t1") (VString "t2")) =
    (ctx_of (Some t1) (Some "t1") (VString "t2"), CallsNext VUndefined)
  /\ belongsToTenant (ctx_of (Some t1) None (VString "t1")) =
       (ctx_of (Some t1) None (VString "t1"), CallsNext VUndefined)
  /\ belongsToTenant (ctx_of (Some t1) (Some "t2") (VString "t1")) =
       forbidden (ctx_of (Some t1) (Some "t2") (VString "t1"))
  /\ belongsToTenant (ctx_of (Some anon) (Some "t1") VUndefined) =
       forbidden (ctx_of (Some anon) (Some "t1") VUndefined).
Proof.
  cbv zeta.
  set (t1 := principal (Some ["user"]) (Some "t1")).
  set (anon := principal (Some ["user"]) None).
  assert (Hne : "t1" <> "") by discriminate.
  split; [|split; [|split]].
  - apply (proj1 (belongsToTenant_correct
                    (ctx_of (Some t1) (Some "t1") (VString "t2")) t1 eq_refl)).
    exists "t1". repeat split. discriminate.
  - apply (proj1 (proj2 (proj1 (proj2 (proj2 (proj2 (proj2
             (belongsToTenant_correct
                (ctx_of (Some t1) None (VString "t1")) t1 eq_refl)))))
             "t1" eq_refl Hne))); reflexivity.
  - apply (proj1 (proj2 (proj2 (proj1 (proj2 (proj2 (proj2 (proj2
             (belongsToTenant_correct
                (ctx_of (Some t1) (Some "t2") (VString "t1")) t1 eq_refl)))))
             "t1" eq_refl Hne))) "t2"); [reflexivity | | ]; discriminate.
  - apply (proj2 (proj2 (proj2 (proj2 (proj2 (belongsToTenant_correct
                    (ctx_of (Some anon) (Some "t1") VUndefined) anon
                    eq_refl)))))).
    reflexivity.
Defined.

(** ** Tokens and the session resolver *)

Lemma split_without_separator sep s :
  has_char sep s = false -> split sep s = [s].
Proof.
  induction s as [|c s IH]; simpl; [reflexivity|].
  intros Hno. apply orb_false_elim in Hno as [Hc Hs].
  rewrite Hc, (IH Hs). reflexivity.
Qed.

Section TokenFacts.

Context `{JsonWebToken} `{ProcessEnv}.

Lemma hasValidSession_bearer now tok :
  has_char " " tok = false -> tok <> "" ->
  hasValidSession now (Some ("Bearer " ++ tok)) = verifyToken now tok.
Proof.
  intros Hblank Hne. unfold hasValidSession.
  unfold startsWith. simpl.
  replace (prefix "" tok) with true by (destruct tok; reflexivity). simpl. rewrite (split_without_separator _ _ Hblank). simpl.
  apply String.eqb_neq in Hne. rewrite Hne. reflexivity.
Qed.

Lemma jwt_verify_sign (Hok : JsonWebToken_ok _) payload secret ttl issued now :
  (now < issued + ttl)%Z ->
  jwt_verify (jwt_sign payload secret ttl issued) secret now =
    inr {| claims := payload; iat := issued; exp := issued + ttl |}.
Proof.
  intros Hbefore. unfold jwt_verify, jwt_sign.
  rewrite (decode_encode Hok), String.eqb_refl. simpl.
  destruct (Z.leb_spec (issued + ttl) now); [lia | reflexivity].
Qed.

(** C7. A token issued for a claim set [C] and verified before it
    expires (fewer than [TOKEN_EXPIRATION] seconds after it was issued)
    verifies, and the payload has the [userId], [email], [roles] and
    [tenantId] of [C]; its expiry is the instant of issue plus
    [TOKEN_EXPIRATION]. *)
Theorem verifyToken_generateToken (Hok : JsonWebToken_ok _)
    (C : JWTPayload) (issued now : Z)
    (Hbefore : (now < issued + TOKEN_EXPIRATION)%Z) :
  exists body,
    verifyToken now (generateToken issued C) = Some body
    /\ exp body = (issued + TOKEN_EXPIRATION)%Z
    /\ userId (claims body) = userId C
    /\ email (claims body) = email C
    /\ roles (claims body) = roles C
    /\ tenantId (claims body) = tenantId C.
Proof.
  unfold verifyToken, generateToken.
  rewrite (jwt_verify_sign Hok) by assumption.
  eexists. split; [reflexivity|]. simpl. auto.
Qed.

(** C8. Whatever makes [jwt.verify] fail, [verifyToken] returns the one
    value [null]: for a string that is no token, for a token whose
    signature is not the one the server's secret gives, and for a token
    whose expiry has passed, whether or not its signature is good.  The
    value returned on failure does not depend on the error. *)
Theorem verifyToken_uniform_failure (now : Z) (tok : string) :
  (jws_decode tok = None -> verifyToken now tok = None)
  /\ (forall body sg,
        jws_decode tok = Some (body, sg) -> sg <> hmac JWT_SECRET body ->
        verifyToken now tok = None)
  /\ (forall body sg,
        jws_decode tok = Some (body, sg) -> (exp body <= now)%Z ->
        verifyToken now tok = None)
  /\ (verifyToken now tok = None <->
      exists e, jwt_verify tok JWT_SECRET now = inl e).
Proof.
  unfold verifyToken, jwt_verify. repeat split.
  - intros ->. reflexivity.
  - intros body sg -> Hsig. apply String.eqb_neq in Hsig. rewrite Hsig.
    reflexivity.
  - intros body sg -> Hexp. destruct (sg =? hmac JWT_SECRET body); simpl;
      [|reflexivity].
    destruct (Z.leb_spec (exp body) now); [reflexivity | lia].
  - destruct (jws_decode tok) as [[body sg]|]; [|eexists; reflexivity].
    destruct (negb (sg =? hmac JWT_SECRET body)); [eexists; reflexivity|].
    destruct (exp body <=? now)%Z; [eexists; reflexivity | discriminate].
  - intros [e ->]. reflexivity.
Qed.

(** C6. [hasValidSession] returns [null] for a header that is absent, is
    the empty string, or does not start with ["Bearer "] (["Basic xyz"]
    among them), and for the header ["Bearer "] whose token part is
    empty, as for every header whose second blank-separated piece is
    empty.  The function throws on no input: its result is a plain
    optional payload. *)
Theorem hasValidSession_null (now : Z) :
  hasValidSession now None = None
  /\ hasValidSession now (Some "") = None
  /\ (forall header, startsWith header "Bearer " = false ->
        hasValidSession now (Some header) = None)
  /\ hasValidSession now (Some "Basic xyz") = None
  /\ hasValidSession now (Some "Bearer ") = None
  /\ (forall header, nth_error (split " " header) 1 = Some "" ->
        hasValidSession now (Some header) = None).
Proof.
  repeat split.
  - intros header Hprefix. unfold hasValidSession. rewrite Hprefix.
    reflexivity.
  - intros header Hpiece. unfold hasValidSession. rewrite Hpiece.
    destruct (negb (startsWith header "Bearer ")); reflexivity.
Qed.

End TokenFacts.

(** ** The stand-ins keep the libraries' promises *)

Module ReferenceFacts.

Import Reference.

Lemma dec_pos_enc p : forall rest,
  dec_pos (enc_pos p ++ rest)%list = Some (p, rest).
Proof.
  induction p as [q IH|q IH|]; intros rest; simpl;
    try rewrite IH; reflexivity.
Qed.

Lemma dec_Z_enc z rest : dec_Z (enc_Z z ++ rest)%list = Some (z, rest).
Proof.
  destruct z; simpl; try rewrite dec_pos_enc; reflexivity.
Qed.

Lemma dec_ascii_enc c rest :
  dec_ascii (enc_ascii c ++ rest)%list = Some (c, rest).
Proof. destruct c. reflexivity. Qed.

Lemma enc_string_length s : String.length s < length (enc_string s).
Proof.
  induction s as [|c s IH]; simpl; [lia|].
  rewrite length_app. lia.
Qed.

Lemma dec_string_fuel_enc s : forall fuel rest,
  String.length s < fuel ->
  dec_string_fuel fuel (enc_string s ++ rest)%list = Some (s, rest).
Proof.
  induction s as [|c s IH]; intros fuel rest Hfuel;
    (destruct fuel as [|fuel]; [simpl in Hfuel; lia|]).
  - reflexivity.
  - cbn [enc_string dec_string_fuel app].
    rewrite <- app_assoc, dec_ascii_enc, IH by (simpl in Hfuel; lia).
    reflexivity.
Qed.

Lemma dec_string_enc s rest :
  dec_string (enc_string s ++ rest)%list = Some (s, rest).
Proof.
  apply dec_string_fuel_enc. rewrite length_app.
  pose proof (enc_string_length s). lia.
Qed.

Lemma enc_strings_length xs : length xs < length (enc_strings xs).
Proof.
  induction xs as [|x xs IH]; simpl; [lia|].
  rewrite length_app. lia.
Qed.

Lemma dec_strings_fuel_enc xs : forall fuel rest,
  length xs < fuel ->
  dec_strings_fuel fuel (enc_strings xs ++ rest)%list = Some (xs, rest).
Proof.
  induction xs as [|x xs IH]; intros fuel rest Hfuel;
    (destruct fuel as [|fuel]; [simpl in Hfuel; lia|]).
  - reflexivity.
  - cbn [enc_strings dec_strings_fuel app].
    rewrite <- app_assoc, dec_string_enc, IH by (simpl in Hfuel; lia).
    reflexivity.
Qed.

Lemma dec_strings_enc xs rest :
  dec_strings (enc_strings xs ++ rest)%list = Some (xs, rest).
Proof.
  apply dec_strings_fuel_enc. rewrite length_app.
  pose proof (enc_strings_length xs). lia.
Qed.

Lemma dec_option_enc {A} (enc : A -> bits) dec
    (Hdec : forall a rest, dec (enc a ++ rest)%list = Some (a, rest)) o rest :
  dec_option dec (enc_option enc o ++ rest)%list = Some (o, rest).
Proof.
  destruct o as [a|]; simpl; [rewrite Hdec|]; reflexivity.
Qed.

Lemma dec_body_enc b rest :
  dec_body (enc_body b ++ rest)%list = Some (b, rest).
Proof.
  destruct b as [[uid em rs tn] i e]. unfold enc_body, dec_body. simpl.
  rewrite <- !app_assoc.
  rewrite !dec_string_enc.
  rewrite (dec_option_enc enc_strings dec_strings dec_strings_enc).
  rewrite (dec_option_enc enc_string dec_string dec_string_enc).
  rewrite !dec_Z_enc. reflexivity.
Qed.

Lemma bits_of_string_of_bits l : bits_of_string (string_of_bits l) = Some l.
Proof.
  induction l as [|b l IH]; simpl; [reflexivity|].
  rewrite IH. destruct b; reflexivity.
Qed.

Lemma string_of_bits_no_blank l : has_char " " (string_of_bits l) = false.
Proof.
  induction l as [|b l IH]; simpl; [reflexivity|].
  rewrite IH. destruct b; reflexivity.
Qed.

Lemma jsonwebtoken_ok : JsonWebToken_ok jsonwebtoken.
Proof.
  split; intros b sg; simpl.
  - rewrite bits_of_string_of_bits, dec_body_enc.
    rewrite <- (app_nil_r (enc_string sg)), dec_string_enc. reflexivity.
  - destruct b as [[uid em rs tn] i e]. unfold enc_body. simpl.
    destruct uid; discriminate.
  - apply string_of_bits_no_blank.
Qed.

End ReferenceFacts.

(** ** The claims on concrete tokens *)

Import Reference.

Lemma verifyToken_generateToken_witness :
  exists body,
    verifyToken 86399 (generateToken 0 alice_claims) = Some body
    /\ exp body = 86400%Z
    /\ userId (claims body) = "u1"
    /\ email (claims body) = "a@b.com"
    /\ roles (claims body) = Some ["manager"]
    /\ tenantId (claims body) = Some "t1".
Proof.
  apply (verifyToken_generateToken ReferenceFacts.jsonwebtoken_ok
           alice_claims 0 86399).
  unfold TOKEN_EXPIRATION. lia.
Defined.

Lemma verifyToken_uniform_failure_witness :
  verifyToken 10 "abc" = None
  /\ verifyToken 10 (jwt_sign alice_claims "another-key" TOKEN_EXPIRATION 0)
     = None
  /\ verifyToken 86400 (generateToken 0 alice_claims) = None.
Proof.
  split; [|split].
  - apply (proj1 (verifyToken_uniform_failure 10 "abc")). reflexivity.
  - eapply (proj1 (proj2 (verifyToken_uniform_failure 10 _))).
    + apply (decode_encode ReferenceFacts.jsonwebtoken_ok).
    + apply String.eqb_neq. vm_compute. reflexivity.
  - eapply (proj1 (proj2 (proj2 (verifyToken_uniform_failure 86400 _)))).
    + apply (decode_encode ReferenceFacts.jsonwebtoken_ok).
    + vm_compute. discriminate.
Defined.

Lemma hasValidSession_null_witness :
  hasValidSession 0 (Some "Token abc") = None
  /\ hasValidSession 0 (Some "Bearer  abc") = None.
Proof.
  split.
  - apply (proj1 (proj2 (proj2 (hasValidSession_null 0)))). reflexivity.
  - apply (proj2 (proj2 (proj2 (proj2 (proj2 (hasValidSession_null 0)))))).
    reflexivity.
Defined.

(** ** Login *)

Section LoginFacts.

Context `{Bcrypt}.

Lemma findOne_healthy where_ w :
  db_fault w = None -> findOne where_ w = (inr (find where_ (users w)), w).
Proof.
  intros Hdb. unfold findOne, bind, db_guard. rewrite Hdb. reflexivity.
Qed.

Lemma findOne_faulty where_ w e :
  db_fault w = Some e -> findOne where_ w = (inl e, w).
Proof.
  intros Hdb. unfold findOne, bind, db_guard. rewrite Hdb. reflexivity.
Qed.

(** The world is left as it was, and the result is a user or an error. *)
Lemma login_attempt_cases e pw w :
  (exists u, login_attempt e pw w = (inr (Some u), w))
  \/ (exists err, login_attempt e pw w = (inl err, w)).
Proof.
  unfold login_attempt, findUserByEmail, bind.
  destruct (db_fault w) as [err|] eqn:Hdb.
  - rewrite (findOne_faulty _ _ _ Hdb). right. eexists. reflexivity.
  - rewrite (findOne_healthy _ _ Hdb).
    destruct (find (by_email e) (users w)) as [u|]; [|right; eexists; reflexivity].
    unfold UserService_verifyPassword, lift.
    destruct (bcrypt_compare pw (UserEntity.password u)) as [err|[|]]; simpl.
    + right. eexists. reflexivity.
    + left. eexists. reflexivity.
    + right. eexists. reflexivity.
Qed.

(** C10. [login] never resolves to [null]: it resolves to the user or it
    throws.  Everything it throws carries status 401.  An unknown email
    is raised as 404 "User not found" inside the [try] block and leaves
    [login] as 401, the status a wrong password leaves with. *)
Theorem login_throws_401 (e pw : string) (w : World) :
  (forall w', login e pw w <> (inr None, w'))
  /\ ((exists u, login e pw w = (inr (Some u), w))
      \/ (exists err, login e pw w = (inl err, w)
                      /\ statusCode err = Some HTTP_UNAUTHENTICATED))
  /\ (forall err w',
        login e pw w = (inl err, w') ->
        statusCode err = Some HTTP_UNAUTHENTICATED)
  /\ (db_fault w = None -> find (by_email e) (users w) = None ->
      login_attempt e pw w =
        (inl (AppError "User not found" "AppError" HTTP_NOT_FOUND), w)
      /\ login e pw w =
        (inl (AppError "Login failed: User not found" "AppError"
                HTTP_UNAUTHENTICATED), w))
  /\ (forall u,
        db_fault w = None -> find (by_email e) (users w) = Some u ->
        bcrypt_compare pw (UserEntity.password u) = inr false ->
        login e pw w =
          (inl (AppError "Login failed: Invalid password" "AppError"
                  HTTP_UNAUTHENTICATED), w)).
Proof.
  assert (Hcases :
    (exists u, login e pw w = (inr (Some u), w))
    \/ (exists err, login e pw w = (inl err, w)
                    /\ statusCode err = Some HTTP_UNAUTHENTICATED)).
  { unfold login, try_catch.
    destruct (login_attempt_cases e pw w) as [[u ->] | [err ->]].
    - left. eauto.
    - right. eexists. split; reflexivity. }
  split; [|split; [exact Hcases|split; [|split]]].
  - intros w' Hnull.
    destruct Hcases as [[u Hu] | [err [Herr _]]]; congruence.
  - intros err w' Hthrown.
    destruct Hcases as [[u Hu] | [err' [Herr Hcode]]]; congruence.
  - intros Hdb Hnone.
    assert (Hattempt : login_attempt e pw w =
              (inl (AppError "User not found" "AppError" HTTP_NOT_FOUND), w)).
    { unfold login_attempt, findUserByEmail, bind.
      rewrite (findOne_healthy _ _ Hdb), Hnone. reflexivity. }
    split; [exact Hattempt|].
    unfold login, try_catch. rewrite Hattempt. reflexivity.
  - intros u Hdb Hfound Hwrong.
    unfold login, try_catch, login_attempt, findUserByEmail, bind.
    rewrite (findOne_healthy _ _ Hdb), Hfound.
    unfold UserService_verifyPassword, lift. rewrite Hwrong. reflexivity.
Qed.

End LoginFacts.

Lemma login_throws_401_witness :
  login "nobody@b.com" "secret123" world0 =
    (inl (AppError "Login failed: User not found" "AppError"
            HTTP_UNAUTHENTICATED), world0)
  /\ login "a@b.com" "guess" world0 =
    (inl (AppError "Login failed: Invalid password" "AppError"
            HTTP_UNAUTHENTICATED), world0).
Proof.
  split.
  - apply (proj1 (proj2 (proj2 (proj2
             (login_throws_401 "nobody@b.com" "secret123" world0)))));
      reflexivity.
  - apply (proj2 (proj2 (proj2 (proj2
             (login_throws_401 "a@b.com" "guess" world0)))) alice_row);
      reflexivity.
Defined.

(** ** Saving a user *)

Section SaveFacts.

Context `{Bcrypt}.

Lemma hashPassword_healthy pw w salt h :
  bcrypt_genSalt SALT_ROUNDS (entropy w) = inr salt ->
  bcrypt_hash pw salt = inr h ->
  hashPassword pw w = (inr h, draw w).
Proof.
  intros Hsalt Hhash.
  unfold hashPassword, try_catch, bind, genSalt, lift.
  rewrite Hsalt, Hhash. reflexivity.
Qed.

Lemma User_hashPassword_healthy u w salt h :
  UserEntity.password u <> "" ->
  bcrypt_genSalt SALT_ROUNDS (entropy w) = inr salt ->
  bcrypt_hash (UserEntity.password u) salt = inr h ->
  User_hashPassword u w = (inr (UserEntity.with_password u h), draw w).
Proof.
  intros Hpw Hsalt Hhash. unfold User_hashPassword.
  apply String.eqb_neq in Hpw. rewrite Hpw. simpl.
  unfold bind. rewrite (hashPassword_healthy _ _ _ _ Hsalt Hhash).
  reflexivity.
Qed.

Lemma same_columns_password a b :
  same_columns a b = true -> UserEntity.password a = UserEntity.password b.
Proof.
  unfold same_columns. intros Hsame.
  repeat (apply andb_prop in Hsame as [Hsame ?]).
  apply String.eqb_eq. assumption.
Qed.


Lemma find_by_id_id i l row :
  find (by_id i) l = Some row -> UserEntity.id row = Some i.
Proof.
  intros Hfind. apply find_some in Hfind as [_ Hid]. unfold by_id in Hid.
  destruct (UserEntity.id row) as [j|]; [|discriminate].
  simpl in Hid. apply String.eqb_eq in Hid. congruence.
Qed.

(** After the row with a given key was overwritten, a lookup by that key
    finds what was written. *)
Lemma find_by_id_overwritten i row' l : forall row,
  find (by_id i) l = Some row ->
  UserEntity.id row' = Some i ->
  find (by_id i)
    (map (fun r => if option_eqb String.eqb (UserEntity.id r) (Some i)
                   then row' else r) l) = Some row'.
Proof.
  induction l as [|r l IH]; intros row Hfind Hid; [discriminate|].
  simpl in *. unfold by_id in *.
  destruct (option_eqb String.eqb (UserEntity.id r) (Some i)) eqn:Hr.
  - rewrite Hid. simpl. rewrite String.eqb_refl. reflexivity.
  - rewrite Hr. eapply IH; eassumption.
Qed.

(** [save] on a loaded entity with a changed column: the listener hashes
    whatever the password column holds, and the result is written. *)
Lemma save_changed u w i row salt h :
  db_fault w = None ->
  UserEntity.id u = Some i ->
  find (by_id i) (users w) = Some row ->
  same_columns row u = false ->
  UserEntity.password u <> "" ->
  bcrypt_genSalt SALT_ROUNDS (entropy w) = inr salt ->
  bcrypt_hash (UserEntity.password u) salt = inr h ->
  exists u' w',
    save u w = (inr u', w')
    /\ find (by_id i) (users w') = Some u'
    /\ UserEntity.password u' = h
    /\ UserEntity.email u' = UserEntity.email u
    /\ db_fault w' = None
    /\ entropy w' = S (entropy w).
Proof.
  intros Hdb Hid Hrow Hdiff Hpw Hsalt Hhash.
  unfold save, bind, db_guard. rewrite Hdb, Hid, Hrow, Hdiff.
  rewrite (User_hashPassword_healthy _ _ _ _ Hpw Hsalt Hhash).
  unfold update_row. simpl. do 2 eexists. split; [reflexivity|]. simpl.
  rewrite Hid. repeat split; try assumption.
  eapply find_by_id_overwritten; [eassumption | reflexivity].
Qed.

End SaveFacts.

(** ** Password hashing on create and update *)

Section PasswordLifecycle.

Context `{Bcrypt}.

(** C1 (what the code does on a password change).  [changePassword]
    hashes the new password itself and hands the hash to [updateUser],
    whose [save] runs the [@BeforeUpdate] listener on it: the row ends up
    holding the hash of the hash.  For a stored user whose current
    password checks, with [h1] the hash of the new password under the
    first salt drawn and [h2] the hash of [h1] under the second, the call
    succeeds and the stored password is [h2]. *)
Theorem changePassword_stores_hash_of_hash
    (w : World) (i cur new : string) (row : User) (s1 h1 s2 h2 : string)
    (Hdb : db_fault w = None)
    (Hrow : find (by_id i) (users w) = Some row)
    (Hcur : bcrypt_compare cur (UserEntity.password row) = inr true)
    (Hs1 : bcrypt_genSalt SALT_ROUNDS (entropy w) = inr s1)
    (Hh1 : bcrypt_hash new s1 = inr h1)
    (Hne : h1 <> "")
    (Hnew : h1 <> UserEntity.password row)
    (Hs2 : bcrypt_genSalt SALT_ROUNDS (S (entropy w)) = inr s2)
    (Hh2 : bcrypt_hash h1 s2 = inr h2) :
  exists w' row',
    changePassword i cur new w = (inr true, w')
    /\ find (by_id i) (users w') = Some row'
    /\ UserEntity.password row' = h2.
Proof.
  pose proof (find_by_id_id _ _ _ Hrow) as Hid.
  destruct (save_changed (UserEntity.with_password row h1) (draw w) i row s2 h2)
    as (u' & w' & Hsave & Hfind & Hpw & _); try assumption.
  { destruct (same_columns row (UserEntity.with_password row h1)) eqn:Hsame;
      [|reflexivity].
    apply same_columns_password in Hsame. simpl in Hsame. congruence. }
  exists w', u'. split; [|split; assumption].
  unfold changePassword, try_catch, bind, getUserById.
  rewrite (findOne_healthy _ _ Hdb), Hrow.
  unfold UserService_verifyPassword, lift. rewrite Hcur. simpl.
  rewrite (hashPassword_healthy _ _ _ _ Hs1 Hh1).
  unfold updateUser, bind.
  rewrite (findOne_healthy _ (draw w) Hdb). simpl. rewrite Hrow.
  unfold Object_assign. simpl. rewrite Hsave. reflexivity.
Qed.


End PasswordLifecycle.

Lemma changePassword_stores_hash_of_hash_witness :
  exists w' row',
    changePassword "u1" "secret123" "newpass456" world0 = (inr true, w')
    /\ find (by_id "u1") (users w') = Some row'
    /\ UserEntity.password row' = "salt1$salt0$newpass456".
Proof.
  apply (changePassword_stores_hash_of_hash world0 "u1" "secret123"
           "newpass456" alice_row "salt0$" "salt0$newpass456" "salt1$"
           "salt1$salt0$newpass456");
    try reflexivity; discriminate.
Defined.


(** The same two runs, evaluated: after the password change neither the
    new nor the old password logs in, and after the email change the
    password that logged in before no longer does. *)
Lemma changePassword_locks_out :
  let w' := snd (changePassword "u1" "secret123" "newpass456" world0) in
  fst (login "a@b.com" "secret123" world0) = inr (Some alice_row)
  /\ map UserEntity.password (users w') = ["salt1$salt0$newpass456"]
  /\ fst (login "a@b.com" "newpass456" w') =
       inl (AppError "Login failed: Invalid password" "AppError"
              HTTP_UNAUTHENTICATED)
  /\ fst (login "a@b.com" "secret123" w') =
       inl (AppError "Login failed: Invalid password" "AppError"
              HTTP_UNAUTHENTICATED).
Proof. vm_compute. repeat split. Qed.

Lemma updateUser_email_locks_out :
  let w' := snd (updateUser "u1"
                   {| upd_email := Some "alice@b.com"; upd_password := None |}
                   world0) in
  map UserEntity.password (users world0) = ["salt9$secret123"]
  /\ map UserEntity.password (users w') = ["salt0$salt9$secret123"]
  /\ fst (login "alice@b.com" "secret123" w') =
       inl (AppError "Login failed: Invalid password" "AppError"
              HTTP_UNAUTHENTICATED).
Proof. vm_compute. repeat split. Qed.

(** ** A principal without roles *)

Section RolelessPrincipal.

Context `{Bcrypt} `{JsonWebToken} `{ProcessEnv}.

(** The token [authenticateUser] hands out is signed over [userId] and
    [email] alone. *)
Lemma authenticateUser_token e pw w a w' :
  authenticateUser e pw w = (inr a, w') ->
  exists u,
    token a = generateToken (clock w)
                {| userId := id_of u; email := UserEntity.email u;
                   roles := None; tenantId := None |}.
Proof.
  unfold authenticateUser, bind.
  destruct (db_fault w) as [err|] eqn:Hdb.
  - rewrite (findOne_faulty _ _ _ Hdb). discriminate.
  - rewrite (findOne_healthy _ _ Hdb).
    destruct (find (by_email e) (users w)) as [u|]; [|discriminate].
    unfold User_validatePassword, verifyPassword, try_catch, lift.
    destruct (bcrypt_compare pw (UserEntity.password u)) as [err|[|]]; simpl;
      try discriminate.
    intros Heq. injection Heq as <- _. exists u. reflexivity.
Qed.

(** C9. A principal whose [roles] is undefined makes every role guard
    throw a TypeError at [user.roles.some], where a 401 or 403 answer was
    due.  Every token of [authenticateUser] leads there: presented as a
    bearer token before it expires, on a request that has a session
    object, it passes [authenticated], which attaches a principal without
    roles, and [hasRole] then throws whatever roles it was built for. *)
Theorem hasRole_throws_without_roles (Hok : JsonWebToken_ok _)
    (allowed : list UserRole) :
  (forall c u,
      session_user (req c) = Some u -> roles (claims u) = None ->
      hasRole allowed c =
        (c, Throws (TypeError
              "Cannot read properties of undefined (reading 'some')")))
  /\ (forall e pw w a w' now c,
        authenticateUser e pw w = (inr a, w') ->
        (now < clock w + TOKEN_EXPIRATION)%Z ->
        authorization (req c) = Some ("Bearer " ++ token a) ->
        session (req c) <> None ->
        exists c' u,
          authenticated now c = (c', CallsNext VUndefined)
          /\ session_user (req c') = Some u
          /\ roles (claims u) = None
          /\ hasRole allowed c' =
               (c', Throws (TypeError
                  "Cannot read properties of undefined (reading 'some')"))).
Proof.
  assert (Hthrows : forall c u,
      session_user (req c) = Some u -> roles (claims u) = None ->
      hasRole allowed c =
        (c, Throws (TypeError
              "Cannot read properties of undefined (reading 'some')"))).
  { intros c u Hu Hroles. unfold hasRole. rewrite Hu, Hroles. reflexivity. }
  split; [exact Hthrows|].
  intros e pw w a w' now c Hauth Hbefore Hheader Hsession.
  destruct (authenticateUser_token _ _ _ _ _ Hauth) as [u Htok].
  assert (Hresolved :
    hasValidSession now (authorization (req c)) =
      Some {| claims := {| userId := id_of u; email := UserEntity.email u;
                           roles := None; tenantId := None |};
              iat := clock w; exp := clock w + TOKEN_EXPIRATION |}).
  { rewrite Hheader, Htok. unfold generateToken, jwt_sign.
    rewrite hasValidSession_bearer
      by (apply (encode_no_blank Hok) || apply (encode_nonempty Hok)).
    unfold verifyToken.
    change (jws_encode _ _) with
      (jwt_sign {| userId := id_of u; email := UserEntity.email u;
                   roles := None; tenantId := None |}
         JWT_SECRET TOKEN_EXPIRATION (clock w)).
    rewrite (jwt_verify_sign Hok) by assumption. reflexivity. }
  unfold authenticated. rewrite Hresolved.
  destruct (session (req c)) as [sess|]; [|contradiction].
  do 2 eexists. split; [reflexivity|]. split; [reflexivity|].
  split; [reflexivity|].
  eapply Hthrows; reflexivity.
Qed.

End RolelessPrincipal.

Lemma hasRole_throws_without_roles_witness :
  exists a c',
    authenticateUser "a@b.com" "secret123" world0 = (inr a, world0)
    /\ authenticated 2000
         {| req := {| authorization := Some ("Bearer " ++ token a);
                      session := Some {| user := None |};
                      params_tenantId := None; body_tenantId := VUndefined |};
            res := fresh_response |} = (c', CallsNext VUndefined)
    /\ hasRole [USER] c' =
         (c', Throws (TypeError
            "Cannot read properties of undefined (reading 'some')")).
Proof.
  destruct (authenticateUser "a@b.com" "secret123" world0) as [[err|a] w']
    eqn:Hauth; [vm_compute in Hauth; discriminate|].
  assert (Hw : w' = world0).
  { vm_compute in Hauth. injection Hauth as _ <-. reflexivity. }
  subst w'.
  destruct (proj2 (hasRole_throws_without_roles
                     ReferenceFacts.jsonwebtoken_ok [USER])
              "a@b.com" "secret123" world0 a world0 2000%Z
              {| req := {| authorization := Some ("Bearer " ++ token a);
                           session := Some {| user := None |};
                           params_tenantId := None;
                           body_tenantId := VUndefined |};
                 res := fresh_response |})
    as (c' & u & Hpass & _ & _ & Hthrow).
  - exact Hauth.
  - vm_compute. reflexivity.
  - reflexivity.
  - discriminate.
  - exists a, c'. repeat split; assumption.
Defined.

(** * Further properties of the code *)

(** ** Role helpers and nested composition *)

Lemma hasRole_passes_iff allowed c :
  passes (snd (hasRole allowed c)) = true <->
  exists u rs, session_user (req c) = Some u
               /\ roles (claims u) = Some rs
               /\ exists r, In r allowed /\ In (UserRole_value r) rs.
Proof.
  unfold hasRole.
  destruct (session_user (req c)) as [u|]; simpl.
  - destruct (roles (claims u)) as [rs|] eqn:Hrs; simpl.
    + pose proof (hasRequiredRole_intersects allowed rs) as Hiff.
      destruct (some _ rs); simpl; split.
      * intros _. exists u, rs. repeat split; try assumption.
        apply Hiff. reflexivity.
      * reflexivity.
      * discriminate.
      * intros (u' & rs' & Hu & Hr & Hex). injection Hu as <-.
        rewrite Hrs in Hr. injection Hr as <-. apply Hiff. assumption.
    + split; [discriminate|]. intros (u' & rs' & Hu & Hr & _).
      injection Hu as <-. congruence.
  - split; [discriminate|]. intros (u' & rs' & Hu & _). discriminate.
Qed.

(** X1. Allowing more roles never turns a pass into a rejection, so
    whoever passes [isUser] passes [isManager], and whoever passes
    [isManager] passes [isAdmin]: [isAdmin] lets the roles manager and
    user through as well.  The other way round fails: a principal whose
    only role is admin passes [isAdmin] and is answered 403 by
    [isManager] and by [isUser]. *)
Theorem role_helpers_widen (c : Ctx) :
  (forall allowed allowed',
      incl allowed allowed' ->
      passes (snd (hasRole allowed c)) = true ->
      passes (snd (hasRole allowed' c)) = true)
  /\ (passes (snd (isUser c)) = true -> passes (snd (isManager c)) = true)
  /\ (passes (snd (isManager c)) = true -> passes (snd (isAdmin c)) = true)
  /\ (forall u,
        session_user (req c) = Some u -> roles (claims u) = Some ["admin"] ->
        isAdmin c = (c, CallsNext VUndefined)
        /\ isManager c =
             reject HTTP_FORBIDDEN "Forbidden - Insufficient permissions" c
        /\ isUser c =
             reject HTTP_FORBIDDEN "Forbidden - Insufficient permissions" c).
Proof.
  assert (Hwiden : forall allowed allowed',
      incl allowed allowed' ->
      passes (snd (hasRole allowed c)) = true ->
      passes (snd (hasRole allowed' c)) = true).
  { intros allowed allowed' Hincl Hpass.
    apply hasRole_passes_iff in Hpass as (u & rs & Hu & Hrs & r & Hr & Hin).
    apply hasRole_passes_iff. exists u, rs. repeat split; try assumption.
    exists r. split; [apply Hincl|]; assumption. }
  split; [exact Hwiden|]. split; [|split].
  - apply Hwiden. intros r [<- | []]. right. left. reflexivity.
  - apply Hwiden. intros r Hr. right. exact Hr.
  - intros u Hu Hrs. unfold isAdmin, isManager, isUser, hasRole.
    rewrite Hu, Hrs. repeat split.
Qed.

Lemma role_helpers_widen_witness :
  let c := ctx_of (Some (principal (Some ["user"]) None)) None VUndefined in
  passes (snd (isAdmin c)) = true.
Proof.
  cbv zeta.
  set (c := ctx_of (Some (principal (Some ["user"]) None)) None VUndefined).
  apply (proj1 (proj2 (proj2 (role_helpers_widen c)))).
  apply (proj1 (proj2 (role_helpers_widen c))).
  reflexivity.
Defined.

Section NestedComposition.

Context {St : Type}.
Implicit Types (ms : list (Middleware St)) (s : St).

Lemma evaluate_in_order_app ms1 : forall ms2 s,
  evaluate_in_order (ms1 ++ ms2)%list s =
    match evaluate_in_order ms1 s with
    | (s', CallsNext err) =>
        if truthy err then (s', CallsNext err) else evaluate_in_order ms2 s'
    | other => other
    end.
Proof.
  induction ms1 as [|m ms1 IH]; intros ms2 s; simpl; [reflexivity|].
  destruct (m s) as [s' [err| |e]]; try reflexivity.
  destruct (truthy err) eqn:Herr; [rewrite Herr; reflexivity | apply IH].
Qed.

(** What a composition forwards to the outer [next] is nothing or a
    truthy error. *)
Lemma evaluate_in_order_next ms : forall s s' err,
  evaluate_in_order ms s = (s', CallsNext err) ->
  err = VUndefined \/ truthy err = true.
Proof.
  induction ms as [|m ms IH]; intros s s' err; simpl.
  - intros Heq. injection Heq as _ <-. left. reflexivity.
  - destruct (m s) as [s1 [err1| |e]]; try discriminate.
    destruct (truthy err1) eqn:H1.
    + intros Heq. injection Heq as _ <-. right. assumption.
    + apply IH.
Qed.

(** X2. Compositions nest: guarding a route with the composition of two
    compositions is the same as guarding it with the composition of the
    two lists one after the other, for all middlewares and every state. *)
Theorem authorizeMultiple_nests ms1 ms2 s :
  authorizeMultiple [authorizeMultiple ms1; authorizeMultiple ms2] s =
  authorizeMultiple (ms1 ++ ms2)%list s.
Proof.
  rewrite !authorizeMultiple_in_order, evaluate_in_order_app. simpl.
  rewrite (authorizeMultiple_in_order ms1 s).
  destruct (evaluate_in_order ms1 s) as [s1 [err1| |e1]] eqn:H1;
    try reflexivity.
  destruct (truthy err1); [reflexivity|].
  rewrite (authorizeMultiple_in_order ms2 s1).
  destruct (evaluate_in_order ms2 s1) as [s2 [err2| |e2]] eqn:H2;
    try reflexivity.
  destruct (evaluate_in_order_next _ _ _ _ H2) as [-> | Htruthy].
  - reflexivity.
  - rewrite Htruthy. reflexivity.
Qed.

End NestedComposition.

(** X3. The documented pair of guards, a role guard and then the tenant
    guard: the answer is the role guard's when that one does not pass,
    and the tenant guard's otherwise; the pair passes exactly when both
    guards pass on the request.  A principal that fails both is told
    about the role, never about the tenant. *)
Theorem role_then_tenant (allowed : list UserRole) (c : Ctx) :
  authorizeMultiple [hasRole allowed; belongsToTenant] c =
    (if passes (snd (hasRole allowed c)) then belongsToTenant c
     else hasRole allowed c)
  /\ (passes (snd (authorizeMultiple [hasRole allowed; belongsToTenant] c))
        = true <->
      passes (snd (hasRole allowed c)) = true
      /\ passes (snd (belongsToTenant c)) = true)
  /\ (passes (snd (hasRole allowed c)) = false ->
      passes (snd (belongsToTenant c)) = false ->
      authorizeMultiple [hasRole allowed; belongsToTenant] c
        = hasRole allowed c).
Proof.
  assert (Hrun :
    authorizeMultiple [hasRole allowed; belongsToTenant] c =
      (if passes (snd (hasRole allowed c)) then belongsToTenant c
       else hasRole allowed c)).
  { rewrite authorizeMultiple_in_order. simpl.
    unfold hasRole.
    destruct (session_user (req c)) as [u|] eqn:Hu; [|reflexivity].
    destruct (roles (claims u)) as [rs|]; [|reflexivity].
    destruct (some _ rs); simpl; [|reflexivity].
    unfold belongsToTenant. rewrite Hu.
    destruct (negb _ || negb _); reflexivity. }
  split; [exact Hrun|]. split.
  - rewrite Hrun. destruct (passes (snd (hasRole allowed c))) eqn:Hrole.
    + tauto.
    + rewrite Hrole. split; [discriminate | intros [? _]; discriminate].
  - intros Hrole _. rewrite Hrun, Hrole. reflexivity.
Qed.

Lemma role_then_tenant_witness :
  let c := ctx_of (Some (principal (Some ["user"]) (Some "t1")))
             (Some "t2") VUndefined in
  authorizeMultiple [hasRole [ADMIN]; belongsToTenant] c =
    reject HTTP_FORBIDDEN "Forbidden - Insufficient permissions" c.
Proof.
  cbv zeta.
  set (c := ctx_of (Some (principal (Some ["user"]) (Some "t1")))
              (Some "t2") VUndefined).
  rewrite (proj2 (proj2 (role_then_tenant [ADMIN] c)));
    reflexivity.
Defined.

(** ** Tokens: the window of validity, the bearer header, the secret *)

Lemma split_at_first_separator sep s rest :
  has_char sep s = false ->
  split sep (s ++ String sep rest) = s :: split sep rest.
Proof.
  induction s as [|c s IH]; simpl.
  - intros _. rewrite Ascii.eqb_refl. reflexivity.
  - intros Hno. apply orb_false_elim in Hno as [Hc Hs].
    rewrite Hc, (IH Hs). reflexivity.
Qed.

Section TokenWindow.

Context `{JsonWebToken} `{ProcessEnv}.

(** X4. A token is good for exactly [TOKEN_EXPIRATION] seconds: verified
    at the instant [now], a token issued at [issued] is accepted if and
    only if [now < issued + 86400]; at the very second of its expiry it
    is refused. *)
Theorem token_validity_window (Hok : JsonWebToken_ok _)
    (C : JWTPayload) (issued now : Z) :
  (verifyToken now (generateToken issued C) =
     Some {| claims := C; iat := issued; exp := issued + 86400 |}
   <-> (now < issued + 86400)%Z)
  /\ (verifyToken now (generateToken issued C) = None
      <-> (issued + 86400 <= now)%Z)
  /\ verifyToken (issued + 86400) (generateToken issued C) = None.
Proof.
  assert (Hrun : verifyToken now (generateToken issued C) =
            if (issued + 86400 <=? now)%Z then None
            else Some {| claims := C; iat := issued; exp := issued + 86400 |}).
  { unfold verifyToken, generateToken, jwt_verify, jwt_sign.
    rewrite (decode_encode Hok), String.eqb_refl. simpl.
    change TOKEN_EXPIRATION with 86400%Z.
    destruct (issued + 86400 <=? now)%Z; reflexivity. }
  split; [|split].
  - rewrite Hrun. destruct (Z.leb_spec (issued + 86400) now); split;
      try discriminate; try lia; reflexivity.
  - rewrite Hrun. destruct (Z.leb_spec (issued + 86400) now); split;
      try discriminate; try lia; reflexivity.
  - unfold verifyToken, generateToken, jwt_verify, jwt_sign.
    rewrite (decode_encode Hok), String.eqb_refl. simpl.
    change TOKEN_EXPIRATION with 86400%Z. rewrite Z.leb_refl. reflexivity.
Qed.

(** X5. The resolver accepts a bearer header made of an issued token:
    before the expiry the principal it returns carries the claims the
    token was issued for.  Whatever follows a blank after the token is
    ignored: the header resolves as the token alone would. *)
Theorem hasValidSession_bearer_token (Hok : JsonWebToken_ok _)
    (C : JWTPayload) (issued now : Z) (trailer : string)
    (Hbefore : (now < issued + TOKEN_EXPIRATION)%Z) :
  hasValidSession now (Some ("Bearer " ++ generateToken issued C)) =
    Some {| claims := C; iat := issued; exp := issued + TOKEN_EXPIRATION |}
  /\ hasValidSession now
       (Some ("Bearer " ++ generateToken issued C ++ " " ++ trailer)) =
     hasValidSession now (Some ("Bearer " ++ generateToken issued C)).
Proof.
  assert (Hblank : has_char " " (generateToken issued C) = false)
    by apply (encode_no_blank Hok).
  assert (Hne : generateToken issued C <> "")
    by apply (encode_nonempty Hok).
  split.
  - rewrite hasValidSession_bearer by assumption.
    unfold verifyToken, generateToken.
    rewrite (jwt_verify_sign Hok) by assumption. reflexivity.
  - rewrite (hasValidSession_bearer now (generateToken issued C))
      by assumption.
    unfold hasValidSession, startsWith. simpl.
    replace (prefix "" (generateToken issued C ++ String " " trailer))
      with true by (destruct (generateToken issued C); reflexivity).
    simpl.
    rewrite (split_at_first_separator _ _ _ Hblank). simpl.
    apply String.eqb_neq in Hne. rewrite Hne. reflexivity.
Qed.


End TokenWindow.

Lemma token_validity_window_witness :
  verifyToken 86400 (generateToken 0 alice_claims) = None.
Proof.
  apply (proj2 (proj1 (proj2 (token_validity_window
           ReferenceFacts.jsonwebtoken_ok alice_claims 0 86400)))).
  lia.
Defined.

Lemma hasValidSession_bearer_token_witness :
  hasValidSession 10
    (Some ("Bearer " ++ generateToken 0 alice_claims ++ " " ++ "tail")) =
  hasValidSession 10 (Some ("Bearer " ++ generateToken 0 alice_claims)).
Proof.
  assert (Hbefore : (10 < 0 + TOKEN_EXPIRATION)%Z)
    by (unfold TOKEN_EXPIRATION; lia).
  exact (proj2 (hasValidSession_bearer_token ReferenceFacts.jsonwebtoken_ok
                  alice_claims 0 10 "tail" Hbefore)).
Defined.


(** ** The authentication middleware *)

Section AuthenticatedFacts.

Context `{Bcrypt} `{JsonWebToken} `{ProcessEnv}.

Lemma authenticated_resolved now c p :
  hasValidSession now (authorization (req c)) = Some p ->
  authenticated now c =
    match session (req c) with
    | Some _ => (attach p c, CallsNext VUndefined)
    | None => reject HTTP_INTERNAL_SERVER_ERROR "Authentication check failed" c
    end.
Proof.
  intros Hp. unfold authenticated. rewrite Hp.
  destruct (session (req c)); reflexivity.
Qed.

(** X7. [authenticated] on a request that presents an issued token as
    its bearer token.  Before the expiry, and with a session object on
    the request, it replaces the session's user by the token's payload,
    leaves the rest of the request and the response alone and calls
    [next()].  Without a session object the same valid token is answered
    500.  From the expiry on the answer is 401, and so it is for a
    request without the header; in both cases the request is left as it
    came. *)
Theorem authenticated_outcomes (Hok : JsonWebToken_ok _)
    (C : JWTPayload) (issued now : Z) (c : Ctx) :
  let body := {| claims := C; iat := issued;
                 exp := issued + TOKEN_EXPIRATION |} in
  (authorization (req c) = Some ("Bearer " ++ generateToken issued C) ->
   (now < issued + TOKEN_EXPIRATION)%Z ->
   (session (req c) <> None ->
      authenticated now c = (attach body c, CallsNext VUndefined))
   /\ (session (req c) = None ->
      authenticated now c =
        reject HTTP_INTERNAL_SERVER_ERROR "Authentication check failed" c))
  /\ (authorization (req c) = Some ("Bearer " ++ generateToken issued C) ->
      (issued + TOKEN_EXPIRATION <= now)%Z ->
      authenticated now c =
        reject HTTP_UNAUTHENTICATED
          "Authentication required. Please login to continue." c)
  /\ (authorization (req c) = None ->
      authenticated now c =
        reject HTTP_UNAUTHENTICATED
          "Authentication required. Please login to continue." c).
Proof.
  cbv zeta. split; [|split].
  - intros Hheader Hbefore.
    assert (Hp : hasValidSession now (authorization (req c)) =
              Some {| claims := C; iat := issued;
                      exp := issued + TOKEN_EXPIRATION |}).
    { rewrite Hheader, hasValidSession_bearer
        by (apply (encode_no_blank Hok) || apply (encode_nonempty Hok)).
      unfold verifyToken, generateToken.
      rewrite (jwt_verify_sign Hok) by assumption. reflexivity. }
    rewrite (authenticated_resolved _ _ _ Hp).
    split.
    + intros Hsession. destruct (session (req c)); [reflexivity|contradiction].
    + intros ->. reflexivity.
  - intros Hheader Hexpired. unfold authenticated.
    rewrite Hheader, hasValidSession_bearer
      by (apply (encode_no_blank Hok) || apply (encode_nonempty Hok)).
    unfold verifyToken, generateToken, jwt_verify, jwt_sign.
    rewrite (decode_encode Hok), String.eqb_refl. simpl.
    destruct (Z.leb_spec (issued + TOKEN_EXPIRATION) now); [reflexivity|lia].
  - intros Hheader. unfold authenticated. rewrite Hheader. reflexivity.
Qed.

(** X8. A token handed out by [authenticateUser] carries no tenant.
    Presented as a bearer token before its expiry it verifies to a
    principal whose claims name no tenant.  On a request without a
    session object [authenticated] answers 500 "Authentication check
    failed" and the guards are not reached; on a request with one it
    makes this principal the session user and calls [next].  On every
    request that has this principal as its session user the tenant guard
    answers 403 "Forbidden - Invalid tenant access" without calling
    [next], whatever tenant the route parameter or the body asks for. *)
Theorem authenticateUser_token_has_no_tenant (Hok : JsonWebToken_ok _)
    (e pw : string) (w w' : World) (a : Authenticated) (now : Z)
    (Hauth : authenticateUser e pw w = (inr a, w'))
    (Hbefore : (now < clock w + TOKEN_EXPIRATION)%Z) :
  exists p,
    hasValidSession now (Some ("Bearer " ++ token a)) = Some p
    /\ tenantId (claims p) = None
    /\ (forall c,
          authorization (req c) = Some ("Bearer " ++ token a) ->
          match session (req c) with
          | None =>
              authenticated now c =
                ({| req := req c;
                    res := {| status := 500;
                              sent := Some "Authentication check failed" |} |},
                 NoNext)
          | Some _ =>
              exists c',
                authenticated now c = (c', CallsNext VUndefined)
                /\ session_user (req c') = Some p
                /\ params_tenantId (req c') = params_tenantId (req c)
                /\ body_tenantId (req c') = body_tenantId (req c)
          end)
    /\ forall c,
         session_user (req c) = Some p ->
         belongsToTenant c =
           ({| req := req c;
               res := {| status := 403;
                         sent := Some "Forbidden - Invalid tenant access" |} |},
            NoNext).
Proof.
  destruct (authenticateUser_token _ _ _ _ _ Hauth) as [u Htok].
  set (C := {| userId := id_of u; email := UserEntity.email u;
               roles := None; tenantId := None |}) in *.
  exists {| claims := C; iat := clock w; exp := clock w + TOKEN_EXPIRATION |}.
  assert (Hvalid : hasValidSession now (Some ("Bearer " ++ token a)) =
            Some {| claims := C; iat := clock w;
                    exp := clock w + TOKEN_EXPIRATION |}).
  { rewrite Htok.
    rewrite hasValidSession_bearer
      by (apply (encode_no_blank Hok) || apply (encode_nonempty Hok)).
    unfold verifyToken, generateToken.
    rewrite (jwt_verify_sign Hok) by assumption. reflexivity. }
  split; [exact Hvalid|]. split; [reflexivity|]. split.
  - intros c Hheader. unfold authenticated. rewrite Hheader, Hvalid.
    destruct (session (req c)) as [s|].
    + eexists. split; [reflexivity|]. repeat split.
    + reflexivity.
  - intros c Hc. unfold belongsToTenant. rewrite Hc. reflexivity.
Qed.

End AuthenticatedFacts.

Lemma authenticated_outcomes_witness :
  let c := {| req := {| authorization :=
                          Some ("Bearer " ++ generateToken 0 alice_claims);
                        session := None;
                        params_tenantId := None;
                        body_tenantId := VUndefined |};
              res := fresh_response |} in
  authenticated 10 c =
    reject HTTP_INTERNAL_SERVER_ERROR "Authentication check failed" c
  /\ authenticated 86400 c =
       reject HTTP_UNAUTHENTICATED
         "Authentication required. Please login to continue." c.
Proof.
  cbv zeta.
  set (c := {| req := {| authorization :=
                           Some ("Bearer " ++ generateToken 0 alice_claims);
                         session := None;
                         params_tenantId := None;
                         body_tenantId := VUndefined |};
               res := fresh_response |}).
  split.
  - apply (proj1 (authenticated_outcomes ReferenceFacts.jsonwebtoken_ok
                    alice_claims 0 10 c)).
    + reflexivity.
    + unfold TOKEN_EXPIRATION. lia.
    + reflexivity.
  - apply (proj1 (proj2 (authenticated_outcomes
                    ReferenceFacts.jsonwebtoken_ok alice_claims 0 86400 c))).
    + reflexivity.
    + unfold TOKEN_EXPIRATION. lia.
Defined.

Lemma authenticateUser_token_has_no_tenant_witness :
  exists a p,
    authenticateUser "a@b.com" "secret123" world0 = (inr a, world0)
    /\ hasValidSession 2000 (Some ("Bearer " ++ token a)) = Some p
    /\ belongsToTenant
         {| req := {| authorization := Some ("Bearer " ++ token a);
                      session := Some {| user := Some p |};
                      params_tenantId := Some "t1";
                      body_tenantId := VString "t1" |};
            res := fresh_response |} =
       ({| req := {| authorization := Some ("Bearer " ++ token a);
                     session := Some {| user := Some p |};
                     params_tenantId := Some "t1";
                     body_tenantId := VString "t1" |};
           res := {| status := 403;
                     sent := Some "Forbidden - Invalid tenant access" |} |},
        NoNext).
Proof.
  destruct (authenticateUser "a@b.com" "secret123" world0) as [[err|a] w']
    eqn:Hauth; [vm_compute in Hauth; discriminate|].
  assert (Hw : w' = world0).
  { vm_compute in Hauth. injection Hauth as _ <-. reflexivity. }
  subst w'.
  destruct (authenticateUser_token_has_no_tenant
              ReferenceFacts.jsonwebtoken_ok
              "a@b.com" "secret123" world0 world0 a 2000%Z Hauth)
    as (p & Hvalid & _ & _ & Hguard).
  - vm_compute. reflexivity.
  - exists a, p. split; [reflexivity|]. split; [exact Hvalid|].
    apply Hguard. reflexivity.
Defined.

(** ** The global error handler *)

Lemma errorHandler_unnamed node_env err r :
  wire r = None ->
  (name err =? VALIDATION_ERROR) = false ->
  (name err =? AUTHENTICATION_ERROR) = false ->
  errorHandler node_env err r =
    (inr tt,
     {| statusCode_now := HTTP_INTERNAL_SERVER_ERROR;
        wire := Some (HTTP_INTERNAL_SERVER_ERROR,
                      {| body_error := "Internal Server Error";
                         body_stack := if is_development node_env
                                       then Some err else None |}) |}).
Proof.
  intros Hwire Hval Hauth. unfold errorHandler.
  rewrite Hval, Hauth. unfold res_json, res_status. simpl. rewrite Hwire.
  reflexivity.
Qed.

Section ErrorHandlerFacts.

Context `{Bcrypt}.

Lemma login_error_name e pw w err w' :
  login e pw w = (inl err, w') -> name err = "AppError".
Proof.
  unfold login, try_catch.
  destruct (login_attempt e pw w) as [[err0|u] w0]; [|discriminate].
  unfold throwError, throw. intros Heq. injection Heq as <- _. reflexivity.
Qed.

(** X9. The error handler tells errors apart by their name alone.  An
    error named neither ValidationError nor AuthenticationError is
    answered 500 "Internal Server Error" on a response nothing was sent
    on: the status and the message it carries do not reach the client
    (outside development, where the whole error is attached).  That is
    the answer to everything [throwError] throws, whatever status it was
    given, and so to every failure of [login], and to the TypeError of a
    role guard. *)
Theorem errorHandler_answers_500 (node_env : option string)
    (r : ServerResponse) (Hfresh : wire r = None) :
  let answer err :=
    (inr tt,
     {| statusCode_now := HTTP_INTERNAL_SERVER_ERROR;
        wire := Some (HTTP_INTERNAL_SERVER_ERROR,
                      {| body_error := "Internal Server Error";
                         body_stack := if is_development node_env
                                       then Some err else None |}) |}) in
  (forall err,
      name err <> VALIDATION_ERROR -> name err <> AUTHENTICATION_ERROR ->
      errorHandler node_env err r = answer err)
  /\ (forall msg code,
        errorHandler node_env (AppError msg "AppError" code) r =
          answer (AppError msg "AppError" code))
  /\ (forall e pw w err w',
        login e pw w = (inl err, w') ->
        errorHandler node_env err r = answer err)
  /\ (forall msg,
        errorHandler node_env (TypeError msg) r = answer (TypeError msg)).
Proof.
  cbv zeta. repeat split.
  - intros err Hval Hauth.
    apply errorHandler_unnamed; [assumption | |]; apply String.eqb_neq;
      assumption.
  - intros msg code. apply errorHandler_unnamed; [assumption | |]; reflexivity.
  - intros e pw w err w' Hlogin.
    apply login_error_name in Hlogin.
    apply errorHandler_unnamed; [assumption | |]; rewrite Hlogin; reflexivity.
  - intros msg. apply errorHandler_unnamed; [assumption | |]; reflexivity.
Qed.

End ErrorHandlerFacts.

(** X10. For the two kinds of error the handler knows by name it sends
    the answer and then runs on into the default block, whose
    [res.json] throws because the response is out already.  A
    ValidationError reaches the client as 400 with its message (or
    "Validation failed" when it has none); an AuthenticationError as 401
    with the fixed text "Authentication failed", its own message
    dropped.  In both cases the handler ends by throwing, with the
    status code on the response object set to 500. *)
Theorem errorHandler_falls_through (node_env : option string) (err : Exn)
    (r : ServerResponse) (Hfresh : wire r = None) :
  (name err = VALIDATION_ERROR ->
   errorHandler node_env err r =
     (inl ERR_HTTP_HEADERS_SENT,
      {| statusCode_now := HTTP_INTERNAL_SERVER_ERROR;
         wire := Some (HTTP_BAD_REQUEST,
                       {| body_error := if message err =? ""
                                        then "Validation failed"
                                        else message err;
                          body_stack := if is_development node_env
                                        then Some err else None |}) |}))
  /\ (name err = AUTHENTICATION_ERROR ->
      errorHandler node_env err r =
        (inl ERR_HTTP_HEADERS_SENT,
         {| statusCode_now := HTTP_INTERNAL_SERVER_ERROR;
            wire := Some (HTTP_UNAUTHENTICATED,
                          {| body_error := "Authentication failed";
                             body_stack := None |}) |})).
Proof.
  split; intros Hname; unfold errorHandler;
    rewrite Hname; simpl; unfold res_json, res_status; simpl;
    rewrite Hfresh; reflexivity.
Qed.

Lemma errorHandler_answers_500_witness :
  errorHandler (Some "production")
    (AppError "Login failed: Invalid password" "AppError" HTTP_UNAUTHENTICATED)
    new_response =
  (inr tt,
   {| statusCode_now := 500;
      wire := Some (500%Z, {| body_error := "Internal Server Error";
                              body_stack := None |}) |}).
Proof.
  apply (proj1 (proj2 (errorHandler_answers_500 (Some "production")
                         new_response eq_refl))).
Defined.

Lemma errorHandler_falls_through_witness :
  errorHandler None
    (AppError "email is required" VALIDATION_ERROR HTTP_BAD_REQUEST)
    new_response =
  (inl ERR_HTTP_HEADERS_SENT,
   {| statusCode_now := 500;
      wire := Some (400%Z, {| body_error := "email is required";
                              body_stack := None |}) |}).
Proof.
  apply (proj1 (errorHandler_falls_through None
                  (AppError "email is required" VALIDATION_ERROR
                     HTTP_BAD_REQUEST)
                  new_response eq_refl)).
  reflexivity.
Defined.

(** ** The bcrypt wrappers *)

Section WrapperFacts.

Context `{Bcrypt}.

(** X11. Whatever goes wrong inside bcrypt, the four wrappers throw an
    AppError with status 500.  [hashPassword] keeps the library's message
    when it has one and says "Error hashing password" when it has none,
    whether it was [genSalt] or [hash] that failed; [verifyPassword] and
    the two synchronous wrappers replace it by their own fixed text.
    When bcrypt answers, [verifyPassword] hands its answer through. *)
Theorem bcrypt_wrappers_throw_500 (pw hashed : string) (w : World) :
  (forall err w',
      hashPassword pw w = (inl err, w') ->
      name err = "AppError"
      /\ statusCode err = Some HTTP_INTERNAL_SERVER_ERROR
      /\ message err <> "")
  /\ (forall e, bcrypt_genSalt SALT_ROUNDS (entropy w) = inl e ->
        message e <> "" ->
        fst (hashPassword pw w) =
          inl (AppError (message e) "AppError" HTTP_INTERNAL_SERVER_ERROR))
  /\ (forall err w',
        verifyPassword pw hashed w = (inl err, w') ->
        err = AppError "Error verifying password" "AppError"
                HTTP_INTERNAL_SERVER_ERROR)
  /\ (forall err w',
        hashPasswordSync pw w = (inl err, w') ->
        err = AppError "Error hashing password synchronously" "AppError"
                HTTP_INTERNAL_SERVER_ERROR)
  /\ (forall err w',
        verifyPasswordSync pw hashed w = (inl err, w') ->
        err = AppError "Error verifying password synchronously" "AppError"
                HTTP_INTERNAL_SERVER_ERROR)
  /\ (forall b, bcrypt_compare pw hashed = inr b ->
        verifyPassword pw hashed w = (inr b, w))
  /\ (forall e, bcrypt_genSalt SALT_ROUNDS (entropy w) = inl e ->
        message e = "" ->
        fst (hashPassword pw w) =
          inl (AppError "Error hashing password" "AppError"
                 HTTP_INTERNAL_SERVER_ERROR))
  /\ (forall salt e,
        bcrypt_genSalt SALT_ROUNDS (entropy w) = inr salt ->
        bcrypt_hash pw salt = inl e ->
        fst (hashPassword pw w) =
          inl (AppError
                 (if message e =? "" then "Error hashing password"
                  else message e)
                 "AppError" HTTP_INTERNAL_SERVER_ERROR)).
Proof.
  assert (Hhash : forall err w',
      hashPassword pw w = (inl err, w') ->
      name err = "AppError"
      /\ statusCode err = Some HTTP_INTERNAL_SERVER_ERROR
      /\ message err <> "").
  { intros err w'. unfold hashPassword, try_catch, bind, genSalt, lift.
    destruct (bcrypt_genSalt SALT_ROUNDS (entropy w)) as [e|salt];
      [|destruct (bcrypt_hash pw salt) as [e|h]; [|discriminate]];
      unfold throwError, throw; intros Heq; injection Heq as <- _; simpl;
      (repeat split;
       destruct (message e =? "") eqn:Hm;
       [discriminate | apply String.eqb_neq; assumption]). }
  split; [exact Hhash|].
  split; [|split; [|split; [|split; [|split; [|split]]]]].
  - intros e He Hmsg. unfold hashPassword, try_catch, bind, genSalt, lift.
    rewrite He. unfold throwError, throw. simpl.
    apply String.eqb_neq in Hmsg. rewrite Hmsg. reflexivity.
  - intros err w'. unfold verifyPassword, try_catch, lift.
    destruct (bcrypt_compare pw hashed); [|discriminate].
    unfold throwError, throw. intros Heq. injection Heq as <- _. reflexivity.
  - intros err w'. unfold hashPasswordSync, try_catch, bind, genSalt, lift.
    destruct (bcrypt_genSalt SALT_ROUNDS (entropy w)) as [e|salt];
      [|destruct (bcrypt_hash pw salt) as [e|h]; [|discriminate]];
      unfold throwError, throw; intros Heq; injection Heq as <- _;
      reflexivity.
  - intros err w'. unfold verifyPasswordSync, try_catch, lift.
    destruct (bcrypt_compare pw hashed); [|discriminate].
    unfold throwError, throw. intros Heq. injection Heq as <- _. reflexivity.
  - intros b Hb. unfold verifyPassword, try_catch, lift. rewrite Hb.
    reflexivity.
  - intros e He Hmsg. unfold hashPassword, try_catch, bind, genSalt, lift.
    rewrite He. unfold throwError, throw. simpl. rewrite Hmsg. reflexivity.
  - intros salt e Hsalt He.
    unfold hashPassword, try_catch, bind, genSalt, lift.
    rewrite Hsalt, He. reflexivity.
Qed.

End WrapperFacts.

Lemma bcrypt_wrappers_throw_500_witness :
  fst (@hashPassword failing_bcrypt "secret123" world0) =
    inl (AppError "not enough entropy" "AppError" HTTP_INTERNAL_SERVER_ERROR)
  /\ fst (@verifyPassword failing_bcrypt "secret123" "salt9$secret123" world0)
     = inl (AppError "Error verifying password" "AppError"
              HTTP_INTERNAL_SERVER_ERROR).
Proof.
  split.
  - apply (proj1 (proj2 (@bcrypt_wrappers_throw_500 failing_bcrypt
                           "secret123" "" world0))
             {| message := "not enough entropy"; name := "Error";
                statusCode := None |}).
    + reflexivity.
    + discriminate.
  - destruct (@verifyPassword failing_bcrypt "secret123" "salt9$secret123"
                world0) as [[err|b] w'] eqn:Hrun;
      [|vm_compute in Hrun; discriminate].
    simpl. f_equal.
    exact (proj1 (proj2 (proj2 (@bcrypt_wrappers_throw_500 failing_bcrypt
                                  "secret123" "salt9$secret123" world0)))
             err w' Hrun).
Defined.

(** ** The services: what they write and what they leave alone *)

Lemma option_eqb_refl {A} (eqb : A -> A -> bool) (o : option A) :
  (forall a, eqb a a = true) -> option_eqb eqb o o = true.
Proof. intros Hrefl. destruct o; simpl; auto. Qed.

Lemma list_eqb_refl {A} (eqb : A -> A -> bool) (l : list A) :
  (forall a, eqb a a = true) -> list_eqb eqb l l = true.
Proof.
  intros Hrefl. induction l as [|a l IH]; simpl; [reflexivity|].
  rewrite Hrefl, IH. reflexivity.
Qed.

Lemma same_columns_refl a : same_columns a a = true.
Proof.
  unfold same_columns.
  rewrite !String.eqb_refl.
  rewrite !(option_eqb_refl String.eqb) by apply String.eqb_refl.
  rewrite (option_eqb_refl Bool.eqb) by (intros []; reflexivity).
  rewrite (option_eqb_refl Z.eqb) by apply Z.eqb_refl.
  rewrite (option_eqb_refl (list_eqb String.eqb))
    by (intros l; apply list_eqb_refl, String.eqb_refl).
  reflexivity.
Qed.

Lemma find_app_none {A} (p : A -> bool) l x :
  find p l = None -> find p (l ++ [x])%list = if p x then Some x else None.
Proof.
  induction l as [|a l IH]; simpl; [reflexivity|].
  destruct (p a); [discriminate | exact IH].
Qed.

Lemma find_app_some {A} (p : A -> bool) l l' x :
  find p l = Some x -> find p (l ++ l')%list = Some x.
Proof.
  induction l as [|a l IH]; simpl; [discriminate|].
  destruct (p a); [trivial | exact IH].
Qed.

Section ServiceFacts.

Context `{Bcrypt}.

(** Hashing touches the entropy and nothing else. *)
Lemma hashPassword_frame pw w r w' :
  hashPassword pw w = (r, w') -> w' = draw w.
Proof.
  unfold hashPassword, try_catch, bind, genSalt, lift.
  destruct (bcrypt_genSalt SALT_ROUNDS (entropy w)) as [e|salt];
    [|destruct (bcrypt_hash pw salt) as [e|h]];
    unfold throwError, throw; intros Heq; injection Heq as _ <-; reflexivity.
Qed.

Lemma User_hashPassword_frame u w r w' :
  User_hashPassword u w = (r, w') ->
  users w' = users w /\ db_fault w' = db_fault w /\ clock w' = clock w
  /\ uuids w' = uuids w.
Proof.
  unfold User_hashPassword.
  destruct (negb (UserEntity.password u =? "")).
  - unfold bind. destruct (hashPassword (UserEntity.password u) w)
      as [[e|h] w1] eqn:Hhash;
      apply hashPassword_frame in Hhash; subst w1;
      unfold ret; intros Heq; injection Heq as _ <-; repeat split.
  - unfold ret. intros Heq. injection Heq as _ <-. repeat split.
Qed.

Lemma User_hashPassword_result u w u' w' :
  User_hashPassword u w = (inr u', w') ->
  UserEntity.email u' = UserEntity.email u
  /\ UserEntity.id u' = UserEntity.id u.
Proof.
  unfold User_hashPassword.
  destruct (negb (UserEntity.password u =? "")).
  - unfold bind. destruct (hashPassword (UserEntity.password u) w)
      as [[e|h] w1]; [discriminate|].
    unfold ret. intros Heq. injection Heq as <- _. split; reflexivity.
  - unfold ret. intros Heq. injection Heq as <- _. split; reflexivity.
Qed.

Lemma User_hashPassword_names u w u' w' :
  User_hashPassword u w = (inr u', w') ->
  UserEntity.firstName u' = UserEntity.firstName u.
Proof.
  unfold User_hashPassword.
  destruct (negb (UserEntity.password u =? "")).
  - unfold bind. destruct (hashPassword (UserEntity.password u) w)
      as [[e|h] w1]; [discriminate|].
    unfold ret. intros Heq. injection Heq as <- _. reflexivity.
  - unfold ret. intros Heq. injection Heq as <- _. reflexivity.
Qed.

(** An entity without a first name is refused, with an error of the
    driver. *)
Lemma insert_violation_without_name u w :
  UserEntity.firstName u = None ->
  exists err,
    insert_violation u w = Some err
    /\ name err = "QueryFailedError" /\ statusCode err = None.
Proof.
  intros Hname. unfold insert_violation. rewrite Hname.
  repeat match goal with
         | |- context [if ?b then _ else _] =>
             destruct b; [eexists; repeat split|]
         end.
  eexists. repeat split.
Qed.

Lemma insert_row_refused u w err :
  insert_violation u w = Some err -> insert_row u w = (inl err, w).
Proof. intros Hv. unfold insert_row. rewrite Hv. reflexivity. Qed.

Lemma createUser_fails e pw w :
  exists err w',
    createUser e pw w = (inl err, w') /\ users w' = users w.
Proof.
  unfold createUser, save, bind, db_guard.
  destruct (db_fault w) as [fault|]; [do 2 eexists; repeat split|]. simpl.
  destruct (User_hashPassword (repository_create e pw) w) as [[err|u1] w1]
    eqn:Hhook.
  - destruct (User_hashPassword_frame _ _ _ _ Hhook) as (Husers & _).
    do 2 eexists. repeat split. exact Husers.
  - destruct (User_hashPassword_frame _ _ _ _ Hhook) as (Husers & _).
    pose proof (User_hashPassword_names _ _ _ _ Hhook) as Hname.
    destruct (insert_violation_without_name u1 w1 Hname) as (err & Hv & _).
    rewrite (insert_row_refused _ _ _ Hv).
    do 2 eexists. repeat split. exact Husers.
Qed.

(** With the password hashed and both values within their columns, the
    INSERT fails on the first name. *)
Lemma createUser_not_null e pw w salt h :
  db_fault w = None -> pw <> "" ->
  bcrypt_genSalt SALT_ROUNDS (entropy w) = inr salt ->
  bcrypt_hash pw salt = inr h ->
  String.length e <= 100 -> String.length h <= 100 ->
  createUser e pw w = (inl (not_null_violation "firstName"), draw w).
Proof.
  intros Hdb Hpw Hsalt Hhash He Hh.
  assert (Hhook : User_hashPassword (repository_create e pw) w =
            (inr (UserEntity.with_password (repository_create e pw) h),
             draw w))
    by (apply (User_hashPassword_healthy _ _ salt); assumption).
  unfold createUser, save, bind, db_guard. rewrite Hdb. simpl.
  rewrite Hhook. apply insert_row_refused.
  unfold insert_violation, longer_than. simpl.
  replace (100 <? String.length e)%nat with false
    by (symmetry; apply Nat.ltb_ge; assumption).
  replace (100 <? String.length h)%nat with false
    by (symmetry; apply Nat.ltb_ge; assumption).
  reflexivity.
Qed.

(** X22. [createUser] never stores a row.  The entity it builds has an
    email and a password and no first or last name, and those two
    columns take no null: whatever the email and the password, the call
    throws and the table is as before.  When the store is up and the
    password hashes (or is empty, and is left alone), what is thrown is
    the driver's QueryFailedError, which carries no status code; when
    the email and the hash also fit their columns, it is the not-null
    violation on [firstName], thrown after the salt was drawn. *)
Theorem createUser_never_stores (e pw : string) (w : World) :
  (exists err w',
      createUser e pw w = (inl err, w') /\ users w' = users w)
  /\ (forall salt h,
        db_fault w = None -> pw <> "" ->
        bcrypt_genSalt SALT_ROUNDS (entropy w) = inr salt ->
        bcrypt_hash pw salt = inr h ->
        (exists err,
            createUser e pw w = (inl err, draw w)
            /\ name err = "QueryFailedError" /\ statusCode err = None)
        /\ (String.length e <= 100 -> String.length h <= 100 ->
            createUser e pw w = (inl (not_null_violation "firstName"), draw w)))
  /\ (db_fault w = None -> pw = "" ->
      exists err,
        createUser e pw w = (inl err, w)
        /\ name err = "QueryFailedError" /\ statusCode err = None).
Proof.
  split; [|split].
  - destruct (createUser_fails e pw w) as (err & w' & Hrun & Husers).
    exists err, w'. split; assumption.
  - intros salt h Hdb Hpw Hsalt Hhash.
    assert (Hhook : User_hashPassword (repository_create e pw) w =
              (inr (UserEntity.with_password (repository_create e pw) h),
               draw w))
      by (apply (User_hashPassword_healthy _ _ salt); assumption).
    split.
    + destruct (insert_violation_without_name
                  (UserEntity.with_password (repository_create e pw) h)
                  (draw w) eq_refl) as (err & Hv & Hname & Hcode).
      exists err. split; [|split; assumption].
      unfold createUser, save, bind, db_guard. rewrite Hdb. simpl.
      rewrite Hhook. apply insert_row_refused. exact Hv.
    + intros He Hh. apply (createUser_not_null e pw w salt h); assumption.
  - intros Hdb ->.
    destruct (insert_violation_without_name (repository_create e "") w eq_refl)
      as (err & Hv & Hname & Hcode).
    exists err. split; [|split; assumption].
    unfold createUser, save, bind, db_guard. rewrite Hdb. simpl.
    apply insert_row_refused. exact Hv.
Qed.

(** X12. [signup] stores nothing.  When a row with the email exists it
    throws 400 "Signup failed: User already exists" and leaves the world
    as it was.  For every email and password it throws an AppError with
    status 400 and the table is as before.  For an email no row has,
    with the password hashed and both fitting their columns, the cause
    in the message is the database's not-null violation on [firstName],
    reached after the salt was drawn. *)
Theorem signup_stores_nothing (e pw : string) (w : World) :
  (forall u, db_fault w = None -> find (by_email e) (users w) = Some u ->
     signup e pw w =
       (inl (AppError "Signup failed: User already exists" "AppError"
               HTTP_BAD_REQUEST), w))
  /\ (exists err w',
        signup e pw w = (inl err, w')
        /\ name err = "AppError"
        /\ statusCode err = Some 400%Z
        /\ users w' = users w)
  /\ (forall salt h,
        db_fault w = None -> find (by_email e) (users w) = None ->
        pw <> "" ->
        bcrypt_genSalt SALT_ROUNDS (entropy w) = inr salt ->
        bcrypt_hash pw salt = inr h ->
        String.length e <= 100 -> String.length h <= 100 ->
        signup e pw w =
          (inl (AppError
                  ("Signup failed: " ++ message (not_null_violation "firstName"))
                  "AppError" HTTP_BAD_REQUEST), draw w)).
Proof.
  split; [|split].
  - intros u Hdb Hfound. unfold signup, try_catch, bind, findUserByEmail.
    rewrite (findOne_healthy _ _ Hdb), Hfound. reflexivity.
  - unfold signup, try_catch, bind, findUserByEmail.
    destruct (db_fault w) as [fault|] eqn:Hdb.
    { rewrite (findOne_faulty _ _ _ Hdb). do 2 eexists. repeat split. }
    rewrite (findOne_healthy _ _ Hdb).
    destruct (find (by_email e) (users w)) as [u|].
    { do 2 eexists. repeat split. }
    destruct (createUser_fails e pw w) as (err & w' & Hrun & Husers).
    rewrite Hrun. do 2 eexists. repeat split. exact Husers.
  - intros salt h Hdb Hfree Hpw Hsalt Hhash He Hh.
    unfold signup, try_catch, bind, findUserByEmail.
    rewrite (findOne_healthy _ _ Hdb), Hfree.
    rewrite (createUser_not_null e pw w salt h) by assumption.
    reflexivity.
Qed.

End ServiceFacts.

Lemma createUser_never_stores_witness :
  createUser "bob@b.com" "hunter22" world0 =
    (inl (not_null_violation "firstName"), draw world0).
Proof.
  apply (proj2 (proj1 (proj2 (createUser_never_stores "bob@b.com" "hunter22"
                                world0))
                  "salt0$" "salt0$hunter22" eq_refl
                  ltac:(discriminate) eq_refl eq_refl));
    simpl; lia.
Defined.

Lemma signup_stores_nothing_witness :
  signup "a@b.com" "another" world0 =
    (inl (AppError "Signup failed: User already exists" "AppError"
            HTTP_BAD_REQUEST), world0)
  /\ fst (signup "bob@b.com" "hunter22" world0) =
       inl (AppError
              ("Signup failed: " ++ message (not_null_violation "firstName"))
              "AppError" HTTP_BAD_REQUEST).
Proof.
  split.
  - apply (proj1 (signup_stores_nothing "a@b.com" "another" world0) alice_row);
      reflexivity.
  - rewrite (proj2 (proj2 (signup_stores_nothing "bob@b.com" "hunter22" world0))
               "salt0$" "salt0$hunter22" eq_refl eq_refl
               ltac:(discriminate) eq_refl eq_refl
               ltac:(simpl; lia) ltac:(simpl; lia)).
    reflexivity.
Defined.

Section CredentialChecks.

Context `{Bcrypt} `{JsonWebToken} `{ProcessEnv}.

Lemma login_run e pw w :
  login e pw w =
    match db_fault w with
    | Some fault =>
        (inl (AppError ("Login failed: " ++ message fault) "AppError"
                HTTP_UNAUTHENTICATED), w)
    | None =>
        match find (by_email e) (users w) with
        | None =>
            (inl (AppError "Login failed: User not found" "AppError"
                    HTTP_UNAUTHENTICATED), w)
        | Some u =>
            match bcrypt_compare pw (UserEntity.password u) with
            | inl err =>
                (inl (AppError ("Login failed: " ++ message err) "AppError"
                        HTTP_UNAUTHENTICATED), w)
            | inr true => (inr (Some u), w)
            | inr false =>
                (inl (AppError "Login failed: Invalid password" "AppError"
                        HTTP_UNAUTHENTICATED), w)
            end
        end
    end.
Proof.
  unfold login, login_attempt, try_catch, findUserByEmail, bind.
  destruct (db_fault w) as [fault|] eqn:Hdb.
  - rewrite (findOne_faulty _ _ _ Hdb). reflexivity.
  - rewrite (findOne_healthy _ _ Hdb).
    destruct (find (by_email e) (users w)) as [u|]; [|reflexivity].
    unfold UserService_verifyPassword, lift.
    destruct (bcrypt_compare pw (UserEntity.password u)) as [err|[|]];
      reflexivity.
Qed.

Lemma confirmPassword_run e pw w :
  confirmPassword e pw w =
    match db_fault w with
    | Some fault =>
        (inl (AppError ("Password confirmation failed: " ++ message fault)
                "AppError" HTTP_BAD_REQUEST), w)
    | None =>
        match find (by_email e) (users w) with
        | None =>
            (inl (AppError "Password confirmation failed: User not found"
                    "AppError" HTTP_BAD_REQUEST), w)
        | Some u =>
            match bcrypt_compare pw (UserEntity.password u) with
            | inl err =>
                (inl (AppError
                        ("Password confirmation failed: " ++ message err)
                        "AppError" HTTP_BAD_REQUEST), w)
            | inr b => (inr b, w)
            end
        end
    end.
Proof.
  unfold confirmPassword, try_catch, findUserByEmail, bind.
  destruct (db_fault w) as [fault|] eqn:Hdb.
  - rewrite (findOne_faulty _ _ _ Hdb). reflexivity.
  - rewrite (findOne_healthy _ _ Hdb).
    destruct (find (by_email e) (users w)) as [u|]; [|reflexivity].
    unfold UserService_verifyPassword, lift.
    destruct (bcrypt_compare pw (UserEntity.password u)) as [err|b];
      reflexivity.
Qed.

(** X14. [confirmPassword] answers with a boolean where [login] answers
    with the user or an error: it resolves to [true] exactly when [login]
    resolves to a user; for a wrong password it resolves to [false]
    while [login] throws; and whatever it throws (an unknown email among
    it) carries 400, not the 401 of [login]. *)
Theorem confirmPassword_and_login (e pw : string) (w : World) :
  (confirmPassword e pw w = (inr true, w) <->
   exists u, login e pw w = (inr (Some u), w))
  /\ (forall u,
        db_fault w = None -> find (by_email e) (users w) = Some u ->
        bcrypt_compare pw (UserEntity.password u) = inr false ->
        confirmPassword e pw w = (inr false, w))
  /\ (db_fault w = None -> find (by_email e) (users w) = None ->
      confirmPassword e pw w =
        (inl (AppError "Password confirmation failed: User not found"
                "AppError" HTTP_BAD_REQUEST), w))
  /\ (forall err w',
        confirmPassword e pw w = (inl err, w') ->
        statusCode err = Some HTTP_BAD_REQUEST).
Proof.
  rewrite confirmPassword_run, login_run.
  split; [|split; [|split]].
  - destruct (db_fault w) as [fault|].
    { split; [discriminate | intros [u Hu]; discriminate]. }
    destruct (find (by_email e) (users w)) as [u|].
    2:{ split; [discriminate | intros [u Hu]; discriminate]. }
    destruct (bcrypt_compare pw (UserEntity.password u)) as [err|[|]].
    + split; [discriminate | intros [u' Hu']; discriminate].
    + split; [intros _; exists u; reflexivity | reflexivity].
    + split; [discriminate | intros [u' Hu']; discriminate].
  - intros u -> -> ->. reflexivity.
  - intros -> ->. reflexivity.
  - intros err w'.
    destruct (db_fault w) as [fault|].
    { intros Heq. injection Heq as <- _. reflexivity. }
    destruct (find (by_email e) (users w)) as [u|].
    2:{ intros Heq. injection Heq as <- _. reflexivity. }
    destruct (bcrypt_compare pw (UserEntity.password u)) as [err'|b];
      [|discriminate].
    intros Heq. injection Heq as <- _. reflexivity.
Qed.

(** X15. [authenticateUser] keeps the causes apart that [login] folds
    into 401: an unknown email throws 404 "User not found", a wrong
    password 401 "Invalid password", a failure inside bcrypt 500 "Error
    verifying password".  When the password checks it resolves to the
    id and email of the stored row and a token issued at that instant
    for them. *)
Theorem authenticateUser_outcomes (e pw : string) (w : World)
    (Hdb : db_fault w = None) :
  (find (by_email e) (users w) = None ->
   authenticateUser e pw w =
     (inl (AppError "User not found" "AppError" HTTP_NOT_FOUND), w))
  /\ (forall u,
        find (by_email e) (users w) = Some u ->
        (bcrypt_compare pw (UserEntity.password u) = inr false ->
         authenticateUser e pw w =
           (inl (AppError "Invalid password" "AppError" HTTP_UNAUTHENTICATED),
            w))
        /\ (forall err,
              bcrypt_compare pw (UserEntity.password u) = inl err ->
              authenticateUser e pw w =
                (inl (AppError "Error verifying password" "AppError"
                        HTTP_INTERNAL_SERVER_ERROR), w))
        /\ (bcrypt_compare pw (UserEntity.password u) = inr true ->
            authenticateUser e pw w =
              (inr {| auth_id := UserEntity.id u;
                      auth_email := UserEntity.email u;
                      token := generateToken (clock w)
                                 {| userId := id_of u;
                                    email := UserEntity.email u;
                                    roles := None; tenantId := None |} |},
               w))).
Proof.
  unfold authenticateUser, bind. rewrite (findOne_healthy _ _ Hdb).
  split.
  - intros ->. reflexivity.
  - intros u ->. unfold User_validatePassword, verifyPassword, try_catch, lift.
    repeat split.
    + intros ->. reflexivity.
    + intros err ->. reflexivity.
    + intros ->. reflexivity.
Qed.

(** X16. The checks read and never write: whatever [login],
    [confirmPassword], [authenticateUser], [getUserById] and
    [findUserByEmail] return or throw, the world after them is the world
    before, the table with its [lastLoginAt] and [refreshToken] columns
    included. *)
Theorem credential_checks_read_only (e pw i : string) (w : World) :
  snd (login e pw w) = w
  /\ snd (confirmPassword e pw w) = w
  /\ snd (authenticateUser e pw w) = w
  /\ snd (getUserById i w) = w
  /\ snd (findUserByEmail e w) = w.
Proof.
  assert (Hfind : forall p, snd (findOne p w) = w).
  { intros p. unfold findOne, bind, db_guard.
    destruct (db_fault w); reflexivity. }
  repeat split; try apply Hfind.
  - rewrite login_run. destruct (db_fault w); [reflexivity|].
    destruct (find (by_email e) (users w)) as [u|]; [|reflexivity].
    destruct (bcrypt_compare pw (UserEntity.password u)) as [err|[|]];
      reflexivity.
  - rewrite confirmPassword_run. destruct (db_fault w); [reflexivity|].
    destruct (find (by_email e) (users w)) as [u|]; [|reflexivity].
    destruct (bcrypt_compare pw (UserEntity.password u)); reflexivity.
  - unfold authenticateUser, bind.
    destruct (findOne (by_email e) w) as [[err|[u|]] w1] eqn:Hf;
      pose proof (Hfind (by_email e)) as Hw; rewrite Hf in Hw; simpl in Hw;
      subst w1; try reflexivity.
    unfold User_validatePassword, verifyPassword, try_catch, lift.
    destruct (bcrypt_compare pw (UserEntity.password u)) as [err|[|]];
      reflexivity.
Qed.

End CredentialChecks.

Lemma confirmPassword_and_login_witness :
  confirmPassword "a@b.com" "guess" world0 = (inr false, world0)
  /\ confirmPassword "nobody@b.com" "guess" world0 =
       (inl (AppError "Password confirmation failed: User not found"
               "AppError" HTTP_BAD_REQUEST), world0).
Proof.
  split.
  - apply (proj1 (proj2 (confirmPassword_and_login "a@b.com" "guess" world0))
             alice_row); reflexivity.
  - apply (proj1 (proj2 (proj2
             (confirmPassword_and_login "nobody@b.com" "guess" world0))));
      reflexivity.
Defined.

Lemma authenticateUser_outcomes_witness :
  authenticateUser "nobody@b.com" "secret123" world0 =
    (inl (AppError "User not found" "AppError" HTTP_NOT_FOUND), world0)
  /\ authenticateUser "a@b.com" "guess" world0 =
    (inl (AppError "Invalid password" "AppError" HTTP_UNAUTHENTICATED), world0).
Proof.
  split.
  - apply (proj1 (authenticateUser_outcomes "nobody@b.com" "secret123"
                    world0 eq_refl)).
    reflexivity.
  - apply (proj1 (proj2 (authenticateUser_outcomes "a@b.com" "guess"
                           world0 eq_refl) alice_row eq_refl)).
    reflexivity.
Defined.

(** ** Updating, deleting, and the empty password *)

Section UpdateFacts.

Context `{Bcrypt}.

Lemma save_frame u w r w' :
  save u w = (inl r, w') -> users w' = users w.
Proof.
  unfold save, bind, db_guard.
  destruct (db_fault w); [intros Heq; injection Heq as _ <-; reflexivity|].
  simpl.
  destruct (match UserEntity.id u with
            | Some i => find (by_id i) (users w)
            | None => None
            end) as [row|].
  - destruct (same_columns row u); [discriminate|].
    destruct (User_hashPassword u w) as [[err|u1] w1] eqn:Hhook.
    + intros Heq. injection Heq as _ <-.
      apply (User_hashPassword_frame _ _ _ _ Hhook).
    + discriminate.
  - destruct (User_hashPassword u w) as [[err|u1] w1] eqn:Hhook.
    + intros Heq. injection Heq as _ <-.
      apply (User_hashPassword_frame _ _ _ _ Hhook).
    + unfold insert_row. destruct (insert_violation u1 w1); [|discriminate].
      intros Heq. injection Heq as _ <-.
      apply (User_hashPassword_frame _ _ _ _ Hhook).
Qed.

Lemma updateUser_frame i d w r w' :
  updateUser i d w = (inl r, w') -> users w' = users w.
Proof.
  unfold updateUser, bind.
  destruct (db_fault w) eqn:Hdb.
  - rewrite (findOne_faulty _ _ _ Hdb). intros Heq. injection Heq as _ <-.
    reflexivity.
  - rewrite (findOne_healthy _ _ Hdb).
    destruct (find (by_id i) (users w)) as [u|].
    + apply save_frame.
    + intros Heq. injection Heq as _ <-. reflexivity.
Qed.

(** X17. A password change that fails changes no row.  Every error of
    [changePassword] carries 400, and the table after it is the table
    before.  For a wrong current password the whole world is untouched:
    the new password is not even hashed. *)
Theorem changePassword_failure_keeps_table (i cur new : string) (w : World) :
  (forall err w',
      changePassword i cur new w = (inl err, w') ->
      statusCode err = Some HTTP_BAD_REQUEST /\ users w' = users w)
  /\ (forall u,
        db_fault w = None -> find (by_id i) (users w) = Some u ->
        bcrypt_compare cur (UserEntity.password u) = inr false ->
        changePassword i cur new w =
          (inl (AppError "Password change failed: Current password is incorrect"
                  "AppError" HTTP_BAD_REQUEST), w)).
Proof.
  split.
  - intros err w'. unfold changePassword, try_catch, bind, getUserById.
    destruct (db_fault w) eqn:Hdb.
    { rewrite (findOne_faulty _ _ _ Hdb). intros Heq.
      injection Heq as <- <-. split; reflexivity. }
    rewrite (findOne_healthy _ _ Hdb).
    destruct (find (by_id i) (users w)) as [u|].
    2:{ intros Heq. injection Heq as <- <-. split; reflexivity. }
    unfold UserService_verifyPassword, lift.
    destruct (bcrypt_compare cur (UserEntity.password u)) as [e|[|]]; simpl.
    + intros Heq. injection Heq as <- <-. split; reflexivity.
    + destruct (hashPassword new w) as [[e|hashed] w1] eqn:Hhash;
        pose proof (hashPassword_frame _ _ _ _ Hhash) as Hw1; subst w1.
      * intros Heq. injection Heq as <- <-. split; reflexivity.
      * destruct (updateUser i _ (draw w)) as [[e|u1] w2] eqn:Hupd.
        -- intros Heq. injection Heq as <- <-. split; [reflexivity|].
           apply (updateUser_frame _ _ _ _ _ Hupd).
        -- discriminate.
    + intros Heq. injection Heq as <- <-. split; reflexivity.
  - intros u Hdb Hfound Hcmp.
    unfold changePassword, try_catch, bind, getUserById.
    rewrite (findOne_healthy _ _ Hdb), Hfound.
    unfold UserService_verifyPassword, lift. rewrite Hcmp. reflexivity.
Qed.

(** X18. An update that changes nothing writes nothing.  When the data
    carry no key, or only values equal to the stored ones, [updateUser]
    resolves to the row as stored and the world stays as it was: the
    listener does not run, the hash is not replaced, [updatedAt] does
    not move. *)
Theorem updateUser_without_change (i : string) (d : UpdateData) (w : World)
    (row : User)
    (Hdb : db_fault w = None)
    (Hrow : find (by_id i) (users w) = Some row)
    (Hemail : upd_email d = None \/ upd_email d = Some (UserEntity.email row))
    (Hpw : upd_password d = None
           \/ upd_password d = Some (UserEntity.password row)) :
  updateUser i d w = (inr row, w).
Proof.
  pose proof (find_by_id_id _ _ _ Hrow) as Hid.
  assert (Hsame : Object_assign row d = row).
  { unfold Object_assign. destruct row. simpl in *.
    destruct Hemail as [-> | ->]; destruct Hpw as [-> | ->]; reflexivity. }
  unfold updateUser, bind. rewrite (findOne_healthy _ _ Hdb), Hrow, Hsame.
  unfold save, bind, db_guard. rewrite Hdb, Hid, Hrow, same_columns_refl.
  reflexivity.
Qed.

(** X19. Handing [updateUser] the new password in plain text is the
    path that stores one hash: for a stored user and a non-empty
    password different from the stored value, the row ends up holding
    [bcrypt.hash(password, salt)] for the salt drawn, the email
    unchanged. *)
Theorem updateUser_hashes_plaintext_once
    (w : World) (i plain : string) (row : User) (salt h : string)
    (Hdb : db_fault w = None)
    (Hrow : find (by_id i) (users w) = Some row)
    (Hne : plain <> "")
    (Hnew : plain <> UserEntity.password row)
    (Hsalt : bcrypt_genSalt SALT_ROUNDS (entropy w) = inr salt)
    (Hhash : bcrypt_hash plain salt = inr h) :
  exists w' row',
    updateUser i {| upd_email := None; upd_password := Some plain |} w
      = (inr row', w')
    /\ find (by_id i) (users w') = Some row'
    /\ UserEntity.password row' = h
    /\ UserEntity.email row' = UserEntity.email row.
Proof.
  pose proof (find_by_id_id _ _ _ Hrow) as Hid.
  destruct (save_changed (UserEntity.with_password row plain) w i row salt h)
    as (u' & w' & Hsave & Hfind & Hpw' & Hem & _); try assumption.
  { destruct (same_columns row (UserEntity.with_password row plain)) eqn:Hsame;
      [|reflexivity].
    apply same_columns_password in Hsame. simpl in Hsame. congruence. }
  exists w', u'. repeat split; try assumption.
  unfold updateUser, bind.
  rewrite (findOne_healthy _ _ Hdb), Hrow.
  unfold Object_assign. simpl. exact Hsave.
Qed.

(** X20. The listener hashes only a non-empty password, so an empty one
    is stored as it is: [updateUser] with the empty password replaces a
    stored hash by the empty string, and draws no salt. *)
Theorem empty_password_stored_unhashed (i : string) (w : World) (row : User)
    (Hdb : db_fault w = None)
    (Hrow : find (by_id i) (users w) = Some row)
    (Hpw : UserEntity.password row <> "") :
  exists w' row',
    updateUser i {| upd_email := None; upd_password := Some "" |} w
      = (inr row', w')
    /\ find (by_id i) (users w') = Some row'
    /\ UserEntity.password row' = ""
    /\ entropy w' = entropy w.
Proof.
  pose proof (find_by_id_id _ _ _ Hrow) as Hid.
  unfold updateUser, bind. rewrite (findOne_healthy _ _ Hdb), Hrow.
  unfold Object_assign. simpl.
  unfold save, bind, db_guard. rewrite Hdb. simpl. rewrite Hid, Hrow.
  destruct (same_columns row (UserEntity.with_password row "")) eqn:Hsame.
  { apply same_columns_password in Hsame. simpl in Hsame. congruence. }
  unfold User_hashPassword. simpl. unfold update_row, ret. simpl.
  do 2 eexists. split; [reflexivity|]. simpl. rewrite Hid.
  repeat split.
  eapply find_by_id_overwritten; [eassumption | reflexivity].
Qed.

Lemma option_eqb_string_eq o i :
  option_eqb String.eqb o (Some i) = true -> o = Some i.
Proof.
  destruct o as [j|]; simpl; [|discriminate].
  intros Heq. apply String.eqb_eq in Heq. congruence.
Qed.

Lemma find_by_id_after_delete i j l :
  find (by_id j)
    (filter (fun r => negb (option_eqb String.eqb (UserEntity.id r) (Some i)))
       l) =
  if j =? i then None else find (by_id j) l.
Proof.
  induction l as [|r l IH]; simpl.
  - destruct (j =? i); reflexivity.
  - destruct (option_eqb String.eqb (UserEntity.id r) (Some i)) eqn:Hr; simpl.
    + rewrite IH. apply option_eqb_string_eq in Hr.
      unfold by_id at 2. rewrite Hr. simpl. rewrite (String.eqb_sym i j).
      destruct (j =? i); reflexivity.
    + destruct (by_id j r) eqn:Hj; [|exact IH].
      destruct (j =? i) eqn:Hji; [|reflexivity].
      apply String.eqb_eq in Hji. subst j. unfold by_id in Hj. congruence.
Qed.

(** X21. Deleting a user.  For a stored id, [deleteUser] resolves to the
    entity without its key and the table no longer has a row with that
    id: [getUserById] then resolves to null and a second [deleteUser]
    throws 404.  Rows with other ids are found as before. *)
Theorem deleteUser_removes_the_row (i : string) (w : World) (row : User)
    (Hdb : db_fault w = None)
    (Hrow : find (by_id i) (users w) = Some row) :
  exists removed w',
    deleteUser i w = (inr removed, w')
    /\ UserEntity.id removed = None
    /\ UserEntity.email removed = UserEntity.email row
    /\ getUserById i w' = (inr None, w')
    /\ (forall j, j <> i ->
          find (by_id j) (users w') = find (by_id j) (users w))
    /\ deleteUser i w' =
         (inl (AppError "User not found" "AppError" HTTP_NOT_FOUND), w').
Proof.
  pose proof (find_by_id_id _ _ _ Hrow) as Hid.
  unfold deleteUser at 1, bind. rewrite (findOne_healthy _ _ Hdb), Hrow.
  unfold remove_row, bind, db_guard. rewrite Hdb, Hid.
  do 2 eexists. split; [reflexivity|]. simpl.
  assert (Hgone : forall j,
    find (by_id j)
      (filter (fun r => negb (option_eqb String.eqb (UserEntity.id r)
                                (Some i))) (users w)) =
    if j =? i then None else find (by_id j) (users w))
    by (intros j; apply find_by_id_after_delete).
  split; [reflexivity|]. split; [reflexivity|]. split; [|split].
  - unfold getUserById. rewrite findOne_healthy by assumption. simpl.
    rewrite Hgone, String.eqb_refl. reflexivity.
  - intros j Hj. rewrite Hgone. apply String.eqb_neq in Hj. rewrite Hj.
    reflexivity.
  - unfold deleteUser, bind. rewrite findOne_healthy by assumption. simpl.
    rewrite Hgone, String.eqb_refl. reflexivity.
Qed.

End UpdateFacts.

Lemma changePassword_failure_keeps_table_witness :
  changePassword "u1" "guess" "newpass456" world0 =
    (inl (AppError "Password change failed: Current password is incorrect"
            "AppError" HTTP_BAD_REQUEST), world0).
Proof.
  apply (proj2 (changePassword_failure_keeps_table
                  "u1" "guess" "newpass456" world0) alice_row);
    reflexivity.
Defined.

Lemma updateUser_without_change_witness :
  updateUser "u1" {| upd_email := Some "a@b.com"; upd_password := None |}
    world0 = (inr alice_row, world0).
Proof.
  apply (updateUser_without_change "u1"
           {| upd_email := Some "a@b.com"; upd_password := None |}
           world0 alice_row).
  - reflexivity.
  - reflexivity.
  - right. reflexivity.
  - left. reflexivity.
Defined.

Lemma updateUser_hashes_plaintext_once_witness :
  exists w' row',
    updateUser "u1" {| upd_email := None; upd_password := Some "newpass456" |}
      world0 = (inr row', w')
    /\ find (by_id "u1") (users w') = Some row'
    /\ UserEntity.password row' = "salt0$newpass456"
    /\ UserEntity.email row' = "a@b.com".
Proof.
  apply (updateUser_hashes_plaintext_once world0 "u1" "newpass456" alice_row
           "salt0$" "salt0$newpass456");
    try reflexivity; discriminate.
Defined.

Lemma empty_password_stored_unhashed_witness :
  exists w' row',
    updateUser "u1" {| upd_email := None; upd_password := Some "" |} world0
      = (inr row', w')
    /\ find (by_id "u1") (users w') = Some row'
    /\ UserEntity.password row' = ""
    /\ entropy w' = entropy world0.
Proof.
  apply (empty_password_stored_unhashed "u1" world0 alice_row);
    try reflexivity.
  discriminate.
Defined.

Lemma deleteUser_removes_the_row_witness :
  exists removed w',
    deleteUser "u1" world0 = (inr removed, w')
    /\ getUserById "u1" w' = (inr None, w')
    /\ deleteUser "u1" w' =
         (inl (AppError "User not found" "AppError" HTTP_NOT_FOUND), w').
Proof.
  destruct (deleteUser_removes_the_row "u1" world0 alice_row eq_refl eq_refl)
    as (removed & w' & Hdel & _ & _ & Hget & _ & Hagain).
  exists removed, w'. repeat split; assumption.
Defined.

(** ** Transactions *)

Section TransactionFacts.

Context {U T : Type}.
Variable callback : U -> (Exn + T) * U.
Variable rej : RunnerCall -> option Exn.
Variable d : U.


(** X23. Once the transaction has started, the runner is released in
    every case: [release] is the last call made and it is made once.
    The callback's result comes back only after [commitTransaction] went
    through, and then nothing was rolled back; when the callback or the
    commit fails, [rollbackTransaction] is called before the release and
    nothing comes back but an error: the callback's (or the commit's) own
    when rollback and release succeed, the rollback's when the rollback
    fails.  A failing [release] turns even a committed transaction into
    an error, and its error replaces any other. *)
Theorem transaction_releases_the_runner
    (Hconnect : rej Connect = None) (Hstart : rej StartTransaction = None) :
  let run := transaction callback (fresh_runner rej d) in
  let made := calls (snd run) in
  (exists middle,
      made = ([Connect; StartTransaction] ++ middle ++ [Release])%list
      /\ ~ In Release middle)
  /\ data (snd run) = snd (callback d)
  /\ (forall v, fst run = inr v ->
        fst (callback d) = inr v
        /\ made = [Connect; StartTransaction; CommitTransaction; Release])
  /\ (In CommitTransaction made <-> exists v, fst (callback d) = inr v)
  /\ (In RollbackTransaction made <->
        (exists e, fst (callback d) = inl e)
        \/ (exists e, rej CommitTransaction = Some e))
  /\ (forall e, fst (callback d) = inl e ->
        rej RollbackTransaction = None -> rej Release = None ->
        fst run = inl e)
  /\ (forall e, rej Release = Some e -> fst run = inl e)
  /\ fst run =
       match rej Release with
       | Some released => inl released
       | None =>
           let rolled_back e :=
             match rej RollbackTransaction with
             | Some e' => inl e'
             | None => inl e
             end in
           match fst (callback d) with
           | inl e => rolled_back e
           | inr v =>
               match rej CommitTransaction with
               | Some e => rolled_back e
               | None => inr v
               end
           end
       end.
Proof.
  cbv zeta.
  unfold transaction, and_then, try_catch_finally, run_callback, runner_call,
    fresh_runner.
  simpl. rewrite Hconnect, Hstart. simpl.
  destruct (callback d) as [[e|v] d'] eqn:Hcb; simpl;
    [|destruct (rej CommitTransaction) as [e1|] eqn:Hcommit; simpl];
    destruct (rej RollbackTransaction) as [e2|] eqn:Hrollback;
    destruct (rej Release) as [e3|] eqn:Hrelease;
    simpl; rewrite ?Hrollback, ?Hrelease; simpl;
    rewrite ?Hrollback, ?Hrelease; simpl;
    (split;
     [first [ exists [RollbackTransaction]; split; [reflexivity|]
            | exists [CommitTransaction; RollbackTransaction];
              split; [reflexivity|]
            | exists [CommitTransaction]; split; [reflexivity|] ];
      simpl; intuition discriminate
     |]);
    (split; [reflexivity|]).
  all: (split; [intros v0 Hv0; try discriminate;
             injection Hv0 as <-; split; reflexivity|]).
  all: (split; [split;
             [ intros Hin; simpl in Hin;
               first [ eexists; reflexivity
                     | exfalso; intuition discriminate ]
             | intros [v0 Hv0]; first [discriminate | simpl; auto 6] ]|]).
  all: (split; [split;
             [ intros Hin; simpl in Hin;
               first [ left; eexists; reflexivity
                     | right; eexists; reflexivity
                     | exfalso; intuition discriminate ]
             | intros [[e0 He0]|[e0 He0]];
               first [discriminate | simpl; auto 6] ]|]).
  all: (split; [intros e0 He0 Hrb Hrel; first [discriminate | congruence]|]).
  all: (split; [intros e0 He0; first [discriminate | congruence]|]).
  all: reflexivity.
Qed.

(** X24. When [startTransaction] rejects, the runner that was connected
    is never released: the calls made are [connect] and
    [startTransaction] and no other, the callback does not run, and the
    error is the one of [startTransaction].  When [connect] itself
    rejects nothing else is called either. *)
Theorem transaction_start_failure_leaks (e : Exn) :
  (rej Connect = None -> rej StartTransaction = Some e ->
   transaction callback (fresh_runner rej d) =
     (inl e, {| calls := [Connect; StartTransaction]; rejects := rej;
                data := d |}))
  /\ (rej Connect = Some e ->
      transaction callback (fresh_runner rej d) =
        (inl e, {| calls := [Connect]; rejects := rej; data := d |})).
Proof.
  unfold transaction, and_then, runner_call, fresh_runner. simpl.
  split.
  - intros -> ->. reflexivity.
  - intros ->. reflexivity.
Qed.

End TransactionFacts.

Lemma transaction_releases_the_runner_witness :
  fst (transaction (fun u : nat => (@inl Exn nat (TypeError "boom"), S u))
         {| calls := []; rejects := fun _ => None; data := 0 |}) =
    inl (TypeError "boom").
Proof.
  apply (proj1 (proj2 (proj2 (proj2 (proj2 (proj2
           (transaction_releases_the_runner
              (fun u : nat => (@inl Exn nat (TypeError "boom"), S u))
              (fun _ => None) 0 eq_refl eq_refl)))))) (TypeError "boom"));
    reflexivity.
Defined.

Lemma transaction_start_failure_leaks_witness :
  let rej k := match k with
               | StartTransaction => Some (TypeError "no transaction")
               | _ => None
               end in
  transaction (fun u : nat => (@inr Exn nat 7, S u))
    {| calls := []; rejects := rej; data := 0 |} =
    (inl (TypeError "no transaction"),
     {| calls := [Connect; StartTransaction]; rejects := rej; data := 0 |}).
Proof.
  cbv zeta.
  apply (proj1 (transaction_start_failure_leaks
                  (fun u : nat => (@inr Exn nat 7, S u))
                  (fun k => match k with
                            | StartTransaction =>
                                Some (TypeError "no transaction")
                            | _ => None
                            end)
                  0 (TypeError "no transaction"))); reflexivity.
Defined.

(** ** The tenants route *)

Section TenantsRouteFacts.

Context `{JsonWebToken} `{ProcessEnv}.

(** X25. The one route of the application, [authenticated] in front of
    its handler.  When the bearer token resolves and the request has a
    session object it answers 200 with "Tenant ID: " and the route
    parameter, the principal attached.  When the token does not resolve
    it answers 401 and the handler does not run.  On a request without a
    session object, which is what reaches the route when no middleware
    has created [req.session], the status is 401 or 500 and never 200,
    valid token or not. *)
Theorem tenants_route_outcomes (now : Z) (c : Ctx) :
  (forall p sess,
      hasValidSession now (authorization (req c)) = Some p ->
      session (req c) = Some sess ->
      tenants_route now c =
        ({| req := req (attach p c);
            res := respond HTTP_OK (tenant_message (req c)) (res c) |},
         NoNext))
  /\ (hasValidSession now (authorization (req c)) = None ->
      tenants_route now c =
        reject HTTP_UNAUTHENTICATED
          "Authentication required. Please login to continue." c)
  /\ (session (req c) = None ->
      (status (res (fst (tenants_route now c))) = HTTP_UNAUTHENTICATED
       \/ status (res (fst (tenants_route now c)))
            = HTTP_INTERNAL_SERVER_ERROR)
      /\ status (res (fst (tenants_route now c))) <> HTTP_OK).
Proof.
  unfold tenants_route, authenticated.
  destruct (hasValidSession now (authorization (req c))) as [p|];
    destruct (session (req c)) as [sess|]; simpl;
    (split; [|split]); try discriminate; try reflexivity.
  - intros p' sess' Hp _. injection Hp as <-. reflexivity.
  - intros _. split; [right; reflexivity | discriminate].
  - intros _. split; [left; reflexivity | discriminate].
Qed.

End TenantsRouteFacts.

Lemma tenants_route_outcomes_witness :
  let c := {| req := {| authorization :=
                          Some ("Bearer " ++ generateToken 0 alice_claims);
                        session := None;
                        params_tenantId := Some "t1";
                        body_tenantId := VUndefined |};
              res := fresh_response |} in
  status (res (fst (tenants_route 10 c))) <> HTTP_OK.
Proof.
  cbv zeta.
  apply (proj2 (proj2 (tenants_route_outcomes 10
           {| req := {| authorization :=
                          Some ("Bearer " ++ generateToken 0 alice_claims);
                        session := None;
                        params_tenantId := Some "t1";
                        body_tenantId := VUndefined |};
              res := fresh_response |}))).
  reflexivity.
Defined.

(** ** The Redis wrapper *)

Lemma alist_get_put_same {V} k (v : V) l : alist_get k (alist_put k v l) = Some v.
Proof.
  induction l as [|[k' v'] l IH]; simpl.
  - rewrite String.eqb_refl. reflexivity.
  - destruct (k' =? k) eqn:Hk; simpl.
    + rewrite String.eqb_refl. reflexivity.
    + rewrite Hk. exact IH.
Qed.

Lemma alist_get_put_other {V} k k' (v : V) l :
  k' <> k -> alist_get k' (alist_put k v l) = alist_get k' l.
Proof.
  intros Hne. induction l as [|[k0 v0] l IH]; simpl.
  - apply String.eqb_neq in Hne. rewrite String.eqb_sym, Hne. reflexivity.
  - destruct (k0 =? k) eqn:Hk; simpl.
    + apply String.eqb_eq in Hk. subst k0.
      apply String.eqb_neq in Hne. rewrite String.eqb_sym, Hne. reflexivity.
    + rewrite IH. reflexivity.
Qed.

Lemma alist_get_remove_same {V} k (l : list (string * V)) :
  alist_get k (alist_remove k l) = None.
Proof.
  induction l as [|[k' v'] l IH]; simpl; [reflexivity|].
  destruct (k' =? k) eqn:Hk; simpl; [exact IH|]. rewrite Hk. exact IH.
Qed.

Lemma alist_get_remove_other {V} k k' (l : list (string * V)) :
  k' <> k -> alist_get k' (alist_remove k l) = alist_get k' l.
Proof.
  intros Hne. induction l as [|[k0 v0] l IH]; simpl; [reflexivity|].
  destruct (k0 =? k) eqn:Hk; simpl.
  - apply String.eqb_eq in Hk. subst k0.
    apply String.eqb_neq in Hne. rewrite String.eqb_sym, Hne. exact IH.
  - rewrite IH. reflexivity.
Qed.

Section RedisFacts.

Context {T : Type} `{Json T}.

Lemma redis_get_of_string k text expires r :
  redis_fault r = None ->
  live k r = Some (RString text expires) ->
  text <> "" ->
  redis_get k r =
    match JSON_parse text with
    | inl e =>
        (inl (AppError ("Error getting Redis key: " ++ message e) "AppError"
                HTTP_INTERNAL_SERVER_ERROR), r)
    | inr v => (inr (Some v), r)
    end.
Proof.
  intros Hup Hlive Hne.
  unfold redis_get, rethrow_500, client_get, connected.
  rewrite Hup, Hlive. apply String.eqb_neq in Hne. rewrite Hne.
  destruct (JSON_parse text); reflexivity.
Qed.

Lemma redis_get_of_nothing k r :
  redis_fault r = None -> live k r = None -> redis_get k r = (inr None, r).
Proof.
  intros Hup Hlive. unfold redis_get, rethrow_500, client_get, connected.
  rewrite Hup, Hlive. reflexivity.
Qed.


(** X27. [getHash] does not give back what [setHash] was given.  After
    [setHash] stored a value under a field, [getHash] of that field
    resolves to the JSON text of the value, a string, where [getAllHash]
    resolves to the value itself under that field. *)
Theorem redis_getHash_returns_text (Hok : Json_ok T)
    (k field : string) (v : T) (r : Redis)
    (Hup : redis_fault r = None) (Hnew : live k r = None) :
  exists r',
    redis_setHash k field v r = (inr tt, r')
    /\ redis_getHash k field r' = (inr (Some (JSON_stringify v)), r')
    /\ redis_getAllHash k r' = (inr [(field, v)], r').
Proof.
  exists (with_keyspace (alist_put k (RHash [(field, JSON_stringify v)])
                           (keyspace r)) r).
  assert (Hlive : live k (with_keyspace
                            (alist_put k (RHash [(field, JSON_stringify v)])
                               (keyspace r)) r) =
                  Some (RHash [(field, JSON_stringify v)])).
  { unfold live. simpl. rewrite alist_get_put_same. reflexivity. }
  split; [|split].
  - unfold redis_setHash, rethrow_500, client_hSet, connected.
    rewrite Hup, Hnew. reflexivity.
  - unfold redis_getHash, rethrow_500, client_hGet, connected.
    simpl redis_fault. rewrite Hup, Hlive. simpl.
    rewrite String.eqb_refl.
    pose proof (stringify_nonempty Hok v) as Hne.
    apply String.eqb_neq in Hne. rewrite Hne.
    rewrite (parse_stringify_string Hok). reflexivity.
  - unfold redis_getAllHash, client_hGetAll, connected.
    simpl redis_fault. rewrite Hup, Hlive. simpl.
    rewrite (parse_stringify Hok). reflexivity.
Qed.

(** X28. What [get] does with a key that holds no JSON text, and what a
    deletion leaves.  A key that is not there, and a key that holds the
    empty string, both read as null; a key that holds a hash, and a key
    whose text does not parse, make [get] throw 500 with the cause in the
    message.  After [delete] the key reads as null and [exists] resolves
    to false, while every other key holds what it held. *)
Theorem redis_get_edges (k : string) (r : Redis)
    (Hup : redis_fault r = None) :
  (live k r = None -> redis_get k r = (inr None, r))
  /\ (forall expires,
        live k r = Some (RString "" expires) ->
        redis_get k r = (inr None, r))
  /\ (forall fields,
        live k r = Some (RHash fields) ->
        redis_get k r =
          (inl (AppError ("Error getting Redis key: " ++ message WRONGTYPE)
                  "AppError" HTTP_INTERNAL_SERVER_ERROR), r))
  /\ (forall text expires e,
        live k r = Some (RString text expires) -> text <> "" ->
        JSON_parse text = inl e ->
        redis_get k r =
          (inl (AppError ("Error getting Redis key: " ++ message e)
                  "AppError" HTTP_INTERNAL_SERVER_ERROR), r))
  /\ (exists r',
        redis_delete k r = (inr tt, r')
        /\ redis_get k r' = (inr None, r')
        /\ redis_exists k r' = (inr false, r')
        /\ forall k', k' <> k -> live k' r' = live k' r).
Proof.
  split; [|split; [|split; [|split]]].
  - apply redis_get_of_nothing. exact Hup.
  - intros expires Hlive.
    unfold redis_get, rethrow_500, client_get, connected.
    rewrite Hup, Hlive. reflexivity.
  - intros fields Hlive.
    unfold redis_get, rethrow_500, client_get, connected.
    rewrite Hup, Hlive. reflexivity.
  - intros text expires e Hlive Hne Hparse.
    rewrite (redis_get_of_string k text expires) by assumption.
    rewrite Hparse. reflexivity.
  - exists (with_keyspace (alist_remove k (keyspace r)) r).
    assert (Hgone : live k (with_keyspace (alist_remove k (keyspace r)) r)
                    = None).
    { unfold live. simpl. rewrite alist_get_remove_same. reflexivity. }
    split; [|split; [|split]].
    + unfold redis_delete, rethrow_500, client_del, connected.
      rewrite Hup. reflexivity.
    + apply redis_get_of_nothing; [exact Hup | exact Hgone].
    + unfold redis_exists, rethrow_500, client_exists, connected.
      simpl redis_fault. rewrite Hup, Hgone. reflexivity.
    + intros k' Hk'. unfold live. simpl.
      rewrite alist_get_remove_other by assumption. reflexivity.
Qed.

(** X29. When the connection fails, every wrapper but one throws an
    AppError with status 500 and the client's message behind its own
    prefix.  [getAllHash] throws a plain Error instead: it carries no
    status code. *)
Theorem redis_connection_failure (k field : string) (v : T)
    (ttl : option Z) (r : Redis) (e : Exn)
    (Hdown : redis_fault r = Some e) :
  let app prefix :=
    AppError (prefix ++ message e) "AppError" HTTP_INTERNAL_SERVER_ERROR in
  redis_set k v ttl r = (inl (app "Error setting Redis key: "), r)
  /\ redis_get k r = (inl (app "Error getting Redis key: "), r)
  /\ redis_delete k r = (inl (app "Error deleting Redis key: "), r)
  /\ redis_exists k r =
       (inl (app "Error checking Redis key existence: "), r)
  /\ redis_setHash k field v r = (inl (app "Error setting Redis hash: "), r)
  /\ redis_getHash k field r = (inl (app "Error getting Redis hash: "), r)
  /\ (exists err,
        redis_getAllHash k r = (inl err, r)
        /\ statusCode err = None
        /\ name err = "Error"
        /\ message err =
             "Error getting all Redis hash values: " ++ Error_toString e).
Proof.
  cbv zeta.
  unfold redis_set, redis_get, redis_delete, redis_exists, redis_setHash,
    redis_getHash, redis_getAllHash, rethrow_500, client_set, client_setEx,
    client_get, client_del, client_exists, client_hSet, client_hGet,
    client_hGetAll, connected.
  repeat split.
  - destruct ttl as [n|]; [destruct (n =? 0)%Z|]; rewrite Hdown; reflexivity.
  - rewrite Hdown. reflexivity.
  - rewrite Hdown. reflexivity.
  - rewrite Hdown. reflexivity.
  - rewrite Hdown. reflexivity.
  - rewrite Hdown. reflexivity.
  - rewrite Hdown. eexists. repeat split.
Qed.

End RedisFacts.

Lemma drop_last_app s c : drop_last (s ++ String c "") = s.
Proof.
  induction s as [|a s IH]; [reflexivity|].
  simpl. destruct s as [|b s]; [reflexivity|].
  simpl in *. rewrite IH. reflexivity.
Qed.

Lemma bool_json_ok : @Json_ok bool bool_json.
Proof.
  split.
  - intros []; reflexivity.
  - intros []; discriminate.
  - intros s. simpl. rewrite drop_last_app. reflexivity.
Qed.


Lemma redis_getHash_returns_text_witness :
  exists r',
    @redis_setHash bool bool_json "flags" "beta" true empty_redis = (inr tt, r')
    /\ @redis_getHash bool bool_json "flags" "beta" r' = (inr (Some "true"), r')
    /\ @redis_getAllHash bool bool_json "flags" r' = (inr [("beta", true)], r').
Proof.
  apply (@redis_getHash_returns_text bool bool_json bool_json_ok
           "flags" "beta" true empty_redis); reflexivity.
Defined.

Lemma redis_get_edges_witness :
  @redis_get bool bool_json "missing" empty_redis = (inr None, empty_redis).
Proof.
  apply (proj1 (@redis_get_edges bool bool_json "missing" empty_redis eq_refl)).
  reflexivity.
Defined.

Lemma redis_connection_failure_witness :
  @redis_get bool bool_json "flag"
    {| keyspace := []; redis_clock := 0;
       redis_fault := Some (TypeError "The client is closed") |} =
  (inl (AppError "Error getting Redis key: The client is closed" "AppError"
          HTTP_INTERNAL_SERVER_ERROR),
   {| keyspace := []; redis_clock := 0;
      redis_fault := Some (TypeError "The client is closed") |}).
Proof.
  apply (proj1 (proj2 (@redis_connection_failure bool bool_json
                         "flag" "f" true None
                         {| keyspace := []; redis_clock := 0;
                            redis_fault :=
                              Some (TypeError "The client is closed") |}
                         (TypeError "The client is closed") eq_refl))).
Defined.
